(** * The build session interpreter of the GoCD Go agent

    A shallow embedding of [agent/build_session.go]: the session state, the
    recursive command interpreter [process] and the helpers it calls, followed
    by the properties of the interpreter that the specification states.

    Go values are represented as follows.
    - A Go [string] is a sequence of bytes: [string] (a list of [ascii]).
    - An [error] is represented by its message ([err.Error()]); a possibly
      nil error is an [option error].
    - A [map[string]string] is a [gmap string string]; a nil map is [None].
    - A nil pointer field of the session is [None].
    - A run-time panic is the [Panic] outcome of a computation.
    - What the operating system, the file system, the server and the
      subprocesses do is read from a [World] of oracles, indexed by a
      counter of the calls made so far. *)

From Stdlib Require Import ZArith List Ascii String Sorted Permutation Lia.
From stdpp Require Import base option gmap strings list sorting pretty.

Set Warnings "-register-all".
Local Open Scope string_scope.

(** ** Outcomes of computations that may panic *)

Inductive Outcome (A : Type) : Type :=
  | Ok (a : A)
  | Panic (msg : string)
  | OutOfFuel.
Arguments Ok {A} a.
Arguments Panic {A} msg.
Arguments OutOfFuel {A}.

#[global] Instance Outcome_ret : MRet Outcome := fun A a => Ok a.

#[global] Instance Outcome_bind : MBind Outcome := fun A B k m =>
  match m with
  | Ok a => k a
  | Panic msg => Panic msg
  | OutOfFuel => OutOfFuel
  end.

Definition error : Type := string.

(** ** Strings *)

Module GoString.

(** [strings.Contains(s, substr)]. *)
Fixpoint Contains (s substr : string) : bool :=
  String.prefix substr s ||
  match s with
  | EmptyString => false
  | String _ s' => Contains s' substr
  end.

(** The order of [sort.Strings]: bytewise lexicographic ([<=] on Go
    strings). *)
Definition le (a b : string) : Prop := String.leb a b = true.

#[global] Instance le_dec : RelDecision le.
Proof. intros a b. unfold le. apply _. Defined.

(** [sort.Strings]. *)
Definition sortStrings (l : list string) : list string := merge_sort le l.

(** Index just after the last ['/'] of [s] (0 when there is none). *)
Fixpoint afterLastSlash (s : string) : nat :=
  match s with
  | EmptyString => 0
  | String c s' =>
      match afterLastSlash s' with
      | 0 => if Ascii.eqb c "/" then 1 else 0
      | S n => S (S n)
      end
  end.

(** [filepath.Split(path)]: the directory part ends with the last
    separator; the file part follows it. *)
Definition Split (path : string) : string * string :=
  let i := afterLastSlash path in
  (substring 0 i path, substring i (String.length path - i) path).

Fixpoint dropTrailingSlashes (s : string) : string :=
  match s with
  | EmptyString => EmptyString
  | String c s' =>
      match dropTrailingSlashes s' with
      | EmptyString => if Ascii.eqb c "/" then EmptyString else String c EmptyString
      | t => String c t
      end
  end.

(** The base name that [os.Stat] stores in the [FileInfo] it returns
    ([FileInfo.Name()]): trailing slashes are removed, but never the first
    byte, and then everything up to the last remaining slash. *)
Definition basename (name : string) : string :=
  match name with
  | EmptyString => EmptyString
  | String c s' =>
      match dropTrailingSlashes s' with
      | EmptyString => String c EmptyString
      | t => snd (Split (String c t))
      end
  end.

(** [strings.Join(parts, sep)]. *)
Definition stringsJoin (parts : list string) (sep : string) : string :=
  String.concat sep parts.

End GoString.

(** ** Runes

    [[]rune(str)] decodes the bytes of a string as UTF-8 and [string(a)]
    encodes a rune slice; a rune is an [int32], here a [Z]. *)

Module Utf8.

Local Open Scope Z_scope.

Definition rune : Type := Z.

Definition RuneError : rune := 0xFFFD.
Definition MaxRune : rune := 0x10FFFF.
Definition MaxASCII : rune := 0x7F.

Definition byteOf (c : ascii) : Z := Z.of_N (N_of_ascii c).
Definition ofByte (b : Z) : ascii := ascii_of_N (Z.to_N b).

Definition between (lo hi b : Z) : bool := (lo <=? b) && (b <=? hi).

(** The i-th byte of [s] if it lies in [lo..hi]. *)
Definition byteIn (s : string) (i : nat) (lo hi : Z) : option Z :=
  match String.get i s with
  | Some c => if between lo hi (byteOf c) then Some (byteOf c) else None
  | None => None
  end.

(** Size of the sequence announced by a first byte, with the range
    accepted for the second byte ([first] and [acceptRanges] of package
    [utf8]); [None] for a byte that starts no sequence. *)
Definition firstByte (b0 : Z) : option (nat * Z * Z) :=
  if between 0xC2 0xDF b0 then Some (2%nat, 0x80, 0xBF)
  else if b0 =? 0xE0 then Some (3%nat, 0xA0, 0xBF)
  else if between 0xE1 0xEC b0 then Some (3%nat, 0x80, 0xBF)
  else if b0 =? 0xED then Some (3%nat, 0x80, 0x9F)
  else if between 0xEE 0xEF b0 then Some (3%nat, 0x80, 0xBF)
  else if b0 =? 0xF0 then Some (4%nat, 0x90, 0xBF)
  else if between 0xF1 0xF3 b0 then Some (4%nat, 0x80, 0xBF)
  else if b0 =? 0xF4 then Some (4%nat, 0x80, 0x8F)
  else None.

(** [utf8.DecodeRuneInString] on a non-empty string whose first byte is
    [c]: the rune and its width in bytes. *)
Definition DecodeRuneInString (c : ascii) (rest : string) : rune * nat :=
  let s0 := byteOf c in
  if s0 <? 0x80 then (s0, 1%nat)
  else
    match firstByte s0 with
    | None => (RuneError, 1%nat)
    | Some (sz, lo, hi) =>
        match byteIn rest 0 lo hi with
        | None => (RuneError, 1%nat)
        | Some s1 =>
            if (sz <=? 2)%nat
            then (Z.lor (Z.shiftl (Z.land s0 0x1F) 6) (Z.land s1 0x3F), 2%nat)
            else
              match byteIn rest 1 0x80 0xBF with
              | None => (RuneError, 1%nat)
              | Some s2 =>
                  if (sz <=? 3)%nat
                  then (Z.lor (Z.shiftl (Z.land s0 0x0F) 12)
                          (Z.lor (Z.shiftl (Z.land s1 0x3F) 6) (Z.land s2 0x3F)),
                        3%nat)
                  else
                    match byteIn rest 2 0x80 0xBF with
                    | None => (RuneError, 1%nat)
                    | Some s3 =>
                        (Z.lor (Z.shiftl (Z.land s0 0x07) 18)
                           (Z.lor (Z.shiftl (Z.land s1 0x3F) 12)
                              (Z.lor (Z.shiftl (Z.land s2 0x3F) 6) (Z.land s3 0x3F))),
                         4%nat)
                    end
              end
        end
    end.

(** [[]rune(s)], skipping [skip] bytes that belong to the rune decoded
    last. *)
Fixpoint runesFrom (skip : nat) (s : string) : list rune :=
  match s with
  | EmptyString => []
  | String c rest =>
      match skip with
      | S k => runesFrom k rest
      | O =>
          let '(r, width) := DecodeRuneInString c rest in
          r :: runesFrom (width - 1) rest
      end
  end.

Definition runes (s : string) : list rune := runesFrom 0 s.

Definition stringOfBytes (l : list Z) : string :=
  fold_right (fun b acc => String (ofByte b) acc) EmptyString l.

(** [utf8.EncodeRune]: a rune out of range or a surrogate half is encoded
    as [RuneError]. *)
Definition encodeRune (r : rune) : list Z :=
  let three (x : Z) :=
    [Z.lor 0xE0 (Z.shiftr x 12);
     Z.lor 0x80 (Z.land (Z.shiftr x 6) 0x3F);
     Z.lor 0x80 (Z.land x 0x3F)] in
  if between 0 0x7F r then [r]
  else if between 0x80 0x7FF r then
    [Z.lor 0xC0 (Z.shiftr r 6); Z.lor 0x80 (Z.land r 0x3F)]
  else if (r <? 0) || (MaxRune <? r) || between 0xD800 0xDFFF r then three RuneError
  else if r <=? 0xFFFF then three r
  else
    [Z.lor 0xF0 (Z.shiftr r 18);
     Z.lor 0x80 (Z.land (Z.shiftr r 12) 0x3F);
     Z.lor 0x80 (Z.land (Z.shiftr r 6) 0x3F);
     Z.lor 0x80 (Z.land r 0x3F)].

(** [string(a)] for a rune slice [a]. *)
Definition stringOfRunes (a : list rune) : string :=
  stringOfBytes (concat (map encodeRune a)).

(** [unicode.ToUpper]: the ASCII range is handled in place, every other
    rune goes through the case tables ([unicode.To(UpperCase, r)]), which
    are a parameter here. *)
Definition ToUpper (caseTable : rune -> rune) (r : rune) : rune :=
  if r <=? MaxASCII then
    if (97 <=? r) && (r <=? 122) then r - (97 - 65) else r
  else caseTable r.

End Utf8.

(** ** Build commands (package [protocal]) *)

(** Modelled from the spec: the declaration of [protocal.BuildCommand] is not
    among the sources; section 3 of the specification gives its fields
    (name, args, workingDirectory, runIfConfig, test, subCommands), and the
    interpreter reads them under the names below. *)
Inductive BuildCommand : Type :=
  | MkBuildCommand
      (name : string) (args : gmap string string) (workingDirectory : string)
      (runIfConfig : string) (test : option BuildCommandTest)
      (subCommands : list BuildCommand)
with BuildCommandTest : Type :=
  | MkBuildCommandTest (command : BuildCommand) (expectation : bool).

Definition Name (cmd : BuildCommand) : string :=
  let 'MkBuildCommand n _ _ _ _ _ := cmd in n.
Definition Args (cmd : BuildCommand) : gmap string string :=
  let 'MkBuildCommand _ a _ _ _ _ := cmd in a.
Definition WorkingDirectory (cmd : BuildCommand) : string :=
  let 'MkBuildCommand _ _ w _ _ _ := cmd in w.
Definition RunIfConfig (cmd : BuildCommand) : string :=
  let 'MkBuildCommand _ _ _ r _ _ := cmd in r.
Definition Test (cmd : BuildCommand) : option BuildCommandTest :=
  let 'MkBuildCommand _ _ _ _ t _ := cmd in t.
Definition SubCommands (cmd : BuildCommand) : list BuildCommand :=
  let 'MkBuildCommand _ _ _ _ _ l := cmd in l.
Definition Command (t : BuildCommandTest) : BuildCommand :=
  let 'MkBuildCommandTest c _ := t in c.
Definition Expectation (t : BuildCommandTest) : bool :=
  let 'MkBuildCommandTest _ e := t in e.

(** [m[key]] on a [map[string]string]: the empty string for a missing key. *)
Definition index (m : gmap string string) (key : string) : string :=
  default "" (m !! key).

(** Modelled from the spec: [ExtractArgList] is not among the sources;
    section 4.1: given an arg count n, return the list
    [args["0"], ..., args["n-1"]]. *)
Definition ExtractArgList (cmd : BuildCommand) (size : Z) : list string :=
  map (fun i : nat => index (Args cmd) (pretty i)) (seq 0 (Z.to_nat size)).

(** [%v] of a [map[string]string]: [map[k1:v1 k2:v2]], the keys in sorted
    order (as package [fmt] prints maps since Go 1.12). *)
Definition formatMap (m : gmap string string) : string :=
  let keys := GoString.sortStrings (map fst (map_to_list m)) in
  "map[" ++ String.concat " " (map (fun k => k ++ ":" ++ index m k) keys) ++ "]".

(** Modelled from the spec: section 6, the report envelope
    [{action: <cmd.name>, data: {agentRuntimeInfo, buildId, jobState, result}}]
    built by [protocal.ReportMessage]. *)
Record Report : Type := MkReport {
  agentRuntimeInfo : gmap string string;
  reportBuildId : string;
  jobState : string;
  result : string
}.

Record Message : Type := MkMessage {
  Action : string;
  Data : Report
}.

Definition ReportMessage (name : string) (report : Report) : Message :=
  MkMessage name report.

(** ** Collaborators of the session *)

(** Modelled from the spec: [BuildConsole] is not among the sources
    (section 4.2: [write(bytes)], [writeLine(fmt, args...)], [close()]). The
    console is represented by the calls made on it, in call order: a
    [WriteLn] with its format string and its operands as [%v] prints them, or
    a [Write] of bytes coming from a subprocess. *)
Inductive ConsoleCall : Type :=
  | WriteLnCall (format : string) (operands : list string)
  | WriteCall (data : string).

Record BuildConsole : Type := MkBuildConsole {
  consoleURL : string;
  calls : list ConsoleCall;
  closed : bool
}.

Definition MakeBuildConsole (url : string) : BuildConsole :=
  MkBuildConsole url [] false.

(** The console after the further calls [entries]. *)
Definition logged (c : BuildConsole) (entries : list ConsoleCall) : BuildConsole :=
  MkBuildConsole (consoleURL c) (calls c ++ entries) (closed c).

(** Modelled from the spec: [Uploader] is not among the sources (section
    4.3); it is known by its base URL. *)
Record Uploader : Type := MkUploader { BaseURL : string }.

Definition NewUploader (baseURL : string) : Uploader := MkUploader baseURL.

(** How a subprocess started by [processExec] ends: the [select] receives
    from [done] (the process ran to its end, with the error of [Run]) or from
    [cancel] (the signal came first; [Kill] may fail). [output] is what the
    process wrote to its standard output and error until then. *)
Inductive ExecResult : Type :=
  | Exited (output : string) (err : option error)
  | Canceled (output : string) (killErr : option error).

(** ** The world outside the interpreter *)

Record World : Type := MkWorld {
  (** [Config.MakeFullServerURL] *)
  MakeFullServerURL : string -> string;
  (** [url.Parse] *)
  urlParse : string -> error + string;
  (** [filepath.Abs], [filepath.Join], [filepath.Glob], [os.Stat] *)
  filepathAbs : string -> error + string;
  filepathJoin : string -> string -> string;
  filepathGlob : nat -> string -> error + list string;
  osStat : nat -> string -> option error;
  (** the agent's [BaseDirOfPathWithWildcard] *)
  BaseDirOfPathWithWildcard : string -> string;
  (** [exec.Cmd.Run] under the session's cancel signal *)
  execRun : nat -> string -> list string -> string -> ExecResult;
  (** [Uploader.BuildDestURL], [Uploader.Upload] *)
  BuildDestURL : Uploader -> string -> string -> error + string;
  Upload : nat -> Uploader -> string -> string -> string -> option error;
  (** the agent's [AgentRuntimeInfo] *)
  AgentRuntimeInfo : nat -> gmap string string;
  (** [unicode.To(unicode.UpperCase, r)] *)
  caseTable : Utf8.rune -> Utf8.rune
}.

(** ** The session *)

(** The fields of the Go struct that the interpreter reads or writes,
    followed by what it does outside the struct: the messages put on [Send],
    the process-wide store written by [SetState], the [Upload] calls made,
    and the number of calls to the world so far. [cancel] and [done] say
    whether the channel of that name is closed. [statusLog] is a ghost field:
    the values assigned to [buildStatus] so far, oldest first. *)
Record BuildSession : Type := MkBuildSession {
  buildStatus : string;
  console : option BuildConsole;
  artifacts : option Uploader;
  properties : option Uploader;
  buildId : string;
  envs : option (gmap string string);
  cancel : bool;
  done : bool;
  Send : list Message;
  state : gmap string string;
  uploads : list (string * string * string);
  ticks : nat;
  statusLog : list string
}.

(** [MakeBuildSession] *)
Definition MakeBuildSession : BuildSession :=
  MkBuildSession "" None None None "" None false false [] ∅ [] 0 [].

Definition set_buildStatus (v : string) (s : BuildSession) : BuildSession :=
  MkBuildSession v (console s) (artifacts s) (properties s) (buildId s) (envs s)
    (cancel s) (done s) (Send s) (state s) (uploads s) (ticks s) (statusLog s).
Definition set_console (v : option BuildConsole) (s : BuildSession) : BuildSession :=
  MkBuildSession (buildStatus s) v (artifacts s) (properties s) (buildId s) (envs s)
    (cancel s) (done s) (Send s) (state s) (uploads s) (ticks s) (statusLog s).
Definition set_artifacts (v : option Uploader) (s : BuildSession) : BuildSession :=
  MkBuildSession (buildStatus s) (console s) v (properties s) (buildId s) (envs s)
    (cancel s) (done s) (Send s) (state s) (uploads s) (ticks s) (statusLog s).
Definition set_properties (v : option Uploader) (s : BuildSession) : BuildSession :=
  MkBuildSession (buildStatus s) (console s) (artifacts s) v (buildId s) (envs s)
    (cancel s) (done s) (Send s) (state s) (uploads s) (ticks s) (statusLog s).
Definition set_buildId (v : string) (s : BuildSession) : BuildSession :=
  MkBuildSession (buildStatus s) (console s) (artifacts s) (properties s) v (envs s)
    (cancel s) (done s) (Send s) (state s) (uploads s) (ticks s) (statusLog s).
Definition set_envs (v : option (gmap string string)) (s : BuildSession) : BuildSession :=
  MkBuildSession (buildStatus s) (console s) (artifacts s) (properties s) (buildId s) v
    (cancel s) (done s) (Send s) (state s) (uploads s) (ticks s) (statusLog s).
Definition set_cancel (v : bool) (s : BuildSession) : BuildSession :=
  MkBuildSession (buildStatus s) (console s) (artifacts s) (properties s) (buildId s)
    (envs s) v (done s) (Send s) (state s) (uploads s) (ticks s) (statusLog s).
Definition set_done (v : bool) (s : BuildSession) : BuildSession :=
  MkBuildSession (buildStatus s) (console s) (artifacts s) (properties s) (buildId s)
    (envs s) (cancel s) v (Send s) (state s) (uploads s) (ticks s) (statusLog s).
Definition set_Send (v : list Message) (s : BuildSession) : BuildSession :=
  MkBuildSession (buildStatus s) (console s) (artifacts s) (properties s) (buildId s)
    (envs s) (cancel s) (done s) v (state s) (uploads s) (ticks s) (statusLog s).
Definition set_state (v : gmap string string) (s : BuildSession) : BuildSession :=
  MkBuildSession (buildStatus s) (console s) (artifacts s) (properties s) (buildId s)
    (envs s) (cancel s) (done s) (Send s) v (uploads s) (ticks s) (statusLog s).
Definition set_uploads (v : list (string * string * string)) (s : BuildSession) : BuildSession :=
  MkBuildSession (buildStatus s) (console s) (artifacts s) (properties s) (buildId s)
    (envs s) (cancel s) (done s) (Send s) (state s) v (ticks s) (statusLog s).
Definition set_ticks (v : nat) (s : BuildSession) : BuildSession :=
  MkBuildSession (buildStatus s) (console s) (artifacts s) (properties s) (buildId s)
    (envs s) (cancel s) (done s) (Send s) (state s) (uploads s) v (statusLog s).
Definition set_statusLog (v : list string) (s : BuildSession) : BuildSession :=
  MkBuildSession (buildStatus s) (console s) (artifacts s) (properties s) (buildId s)
    (envs s) (cancel s) (done s) (Send s) (state s) (uploads s) (ticks s) v.

(** [s.buildStatus = v] *)
Definition assignBuildStatus (v : string) (s : BuildSession) : BuildSession :=
  set_statusLog (statusLog s ++ [v]) (set_buildStatus v s).

(** One more call to the world has been made. *)
Definition tick (s : BuildSession) : BuildSession := set_ticks (S (ticks s)) s.

(** The agent's [SetState]. *)
Definition SetState (key value : string) (s : BuildSession) : BuildSession :=
  set_state (<[key := value]> (state s)) s.

(** Modelled from the spec: the agent's [Join] helper is not among the
    sources; sections 4.4 and 4.4's file mode give the joined path as
    [destDir + '/' + rest]. *)
Definition Join (sep : string) (parts : list string) : string :=
  GoString.stringsJoin parts sep.

(** ** The interpreter *)

Inductive Kind : Type :=
  | KStart | KCompose | KExport | KTest | KExec | KEcho | KUploadArtifact
  | KReport | KEnd | KOther.

(** The [switch cmd.Name] of [process]. *)
Definition kindOf (name : string) : Kind :=
  if decide (name = "start") then KStart
  else if decide (name = "compose") then KCompose
  else if decide (name = "export") then KExport
  else if decide (name = "test") then KTest
  else if decide (name = "exec") then KExec
  else if decide (name = "echo") then KEcho
  else if decide (name = "uploadArtifact") then KUploadArtifact
  else if decide (name = "reportCurrentStatus") then KReport
  else if decide (name = "reportCompleting") then KReport
  else if decide (name = "reportCompleted") then KReport
  else if decide (name = "end") then KEnd
  else KOther.

(** What [process] and the [processX] functions return: the error (or nil)
    and the session as they leave it. *)
Definition Result : Type := Outcome (option error * BuildSession).

(** [isCanceled]: whether the [cancel] channel is closed. The channel is
    closed from outside the interpreter, by [Close]: before [process] is
    called, or while a subprocess of [processExec] runs. *)
Definition isCanceled (s : BuildSession) : bool := cancel s.

(** [console.WriteLn(format, operands...)]. The console of a session that
    has not started is a nil pointer; a call through it is taken to be a nil
    dereference. *)
Definition WriteLn (format : string) (operands : list string) (s : BuildSession)
  : Outcome BuildSession :=
  match console s with
  | None => Panic "nil pointer dereference"
  | Some c => Ok (set_console (Some (logged c [WriteLnCall format operands])) s)
  end.

(** [console.Write(data)], called for the output of a subprocess; no call is
    made when there is no output. *)
Definition Write (data : string) (s : BuildSession) : Outcome BuildSession :=
  if decide (data = "") then Ok s
  else
    match console s with
    | None => Panic "nil pointer dereference"
    | Some c => Ok (set_console (Some (logged c [WriteCall data])) s)
    end.

(** [for _, line := range lines { s.console.WriteLn(line) }] *)
Fixpoint writeLines (lines : list string) (s : BuildSession) : Outcome BuildSession :=
  match lines with
  | [] => Ok s
  | line :: lines' => s1 ← WriteLn line [] s; writeLines lines' s1
  end.

Definition destDescription (path : string) : string :=
  if decide (path = "") then "[defaultRoot]" else path.

(** [fmt.Sprintf("export %v=%v", key, value)] *)
Definition exportLine (kv : string * string) : string :=
  "export " ++ fst kv ++ "=" ++ snd kv.

Definition fail (err : error) (s : BuildSession) : Outcome BuildSession :=
  if decide (buildStatus s ≠ "failed") then
    s1 ← WriteLn err [] s;
    Ok (assignBuildStatus "failed" s1)
  else Ok s.

(** [fail] called with each of the errors [errs], in turn. *)
Fixpoint failEach (errs : list error) (s : BuildSession) : Outcome BuildSession :=
  match errs with
  | [] => Ok s
  | err :: errs' => s1 ← fail err s; failEach errs' s1
  end.

Section Interpreter.

Variable W : World.

Definition capitalize (str : string) : Outcome string :=
  match Utf8.runes str with
  | [] => Panic "index out of range"
  | a0 :: a => Ok (Utf8.stringOfRunes (Utf8.ToUpper (caseTable W) a0 :: a))
  end.

Definition statusReport (jobState : string) (s : BuildSession) : Outcome Report :=
  result ← capitalize (buildStatus s);
  Ok (MkReport (AgentRuntimeInfo W (ticks s)) (buildId s) jobState result).

Definition processStart (cmd : BuildCommand) (s : BuildSession) : Result :=
  let settings := Args cmd in
  let s := SetState "buildLocator" (index settings "buildLocator") s in
  let s := SetState "buildLocatorForDisplay" (index settings "buildLocatorForDisplay") s in
  match urlParse W (MakeFullServerURL W (index settings "consoleURI")) with
  | inl err => Ok (Some err, s)
  | inr curl =>
      let s := set_console (Some (MakeBuildConsole curl)) s in
      let s := set_artifacts
                 (Some (NewUploader
                          (MakeFullServerURL W (index settings "artifactUploadBaseUrl")))) s in
      let s := set_properties
                 (Some (NewUploader
                          (MakeFullServerURL W (index settings "propertyBaseUrl")))) s in
      let s := set_buildId (index settings "buildId") s in
      let s := set_envs (Some ∅) s in
      let s := assignBuildStatus "passed" s in
      Ok (None, s)
  end.

Definition processExport (cmd : BuildCommand) (s : BuildSession) : Result :=
  if decide (0 < size (Args cmd)) then
    match envs s with
    | None => Panic "assignment to entry in nil map"
    | Some m => Ok (None, set_envs (Some (Args cmd ∪ m)) s)
    end
  else
    let exports :=
      GoString.sortStrings (map exportLine (map_to_list (default ∅ (envs s)))) in
    s1 ← writeLines exports s;
    Ok (None, s1).

Definition processEcho (cmd : BuildCommand) (s : BuildSession) : Result :=
  s1 ← writeLines (ExtractArgList cmd (Z.of_nat (size (Args cmd)))) s;
  Ok (None, s1).

Definition processTest (cmd : BuildCommand) (s : BuildSession) : Result :=
  let flag := index (Args cmd) "flag" in
  let targetPath := index (Args cmd) "path" in
  if decide ("-d" = flag) then Ok (osStat W (ticks s) targetPath, tick s)
  else Ok (Some "unknown test flag", s).

Definition processExec (cmd : BuildCommand) (s : BuildSession) : Result :=
  let arg0 := index (Args cmd) "command" in
  let args := ExtractArgList cmd (Z.of_nat (size (Args cmd)) - 1) in
  match execRun W (ticks s) arg0 args (WorkingDirectory cmd) with
  | Canceled output killErr =>
      s1 ← Write output (set_cancel true (tick s));
      s2 ← match killErr with
            | Some err =>
                WriteLn "kill command %v failed, error: %v"
                  [formatMap (Args cmd); err] s1
            | None => Ok s1
            end;
      Ok (Some (formatMap (Args cmd) ++ " is canceled"), s2)
  | Exited output err =>
      s1 ← Write output (tick s);
      Ok (err, s1)
  end.

(** The part of [uploadArtifacts] after the wildcard branch. *)
Definition uploadPath (source destDir : string) (s : BuildSession) : Result :=
  match osStat W (ticks s) source with
  | Some err => Ok (Some err, tick s)
  | None =>
      s1 ← WriteLn "Uploading artifacts from %v to %v"
             [source; destDescription destDir] (tick s);
      let destPath :=
        if decide (destDir ≠ "")
        then Join "/" [destDir; GoString.basename source]
        else GoString.basename source in
      match artifacts s1 with
      | None => Panic "nil pointer dereference"
      | Some uploader =>
          match BuildDestURL W uploader destDir (buildId s1) with
          | inl err => Ok (Some err, s1)
          | inr destURL =>
              Ok (Upload W (ticks s1) uploader source destPath destURL,
                  tick (set_uploads (uploads s1 ++ [(source, destPath, destURL)]) s1))
          end
      end
  end.

(** [uploadArtifacts]; the recursion on the matches of a wildcard is not
    bounded by the source, so it is bounded here by [fuel], which a source
    without wildcard does not use. *)
Fixpoint uploadArtifacts (fuel : nat) (source destDir : string) (s : BuildSession)
  : Result :=
  if GoString.Contains source "*" then
    match fuel with
    | O => OutOfFuel
    | S fuel' =>
        match filepathGlob W (ticks s) source with
        | inl err => Ok (Some err, tick s)
        | inr matches =>
            let base := BaseDirOfPathWithWildcard W source in
            let baseLen := String.length base in
            (fix each (matches : list string) (s : BuildSession) : Result :=
               match matches with
               | [] => Ok (None, s)
               | file :: matches' =>
                   let fileDir := fst (GoString.Split file) in
                   if decide (baseLen < String.length fileDir) then
                     let dest :=
                       Join "/" [destDir;
                                 substring baseLen
                                   (String.length fileDir - 1 - baseLen) fileDir] in
                     '(err, s1) ← uploadArtifacts fuel' file dest s;
                     match err with
                     | Some e => Ok (Some e, s1)
                     | None => each matches' s1
                     end
                   else Panic "slice bounds out of range"
               end) matches (tick s)
        end
    end
  else uploadPath source destDir s.

Variable fuel : nat.

Definition processUploadArtifact (cmd : BuildCommand) (s : BuildSession) : Result :=
  let src := index (Args cmd) "src" in
  let destDir := index (Args cmd) "dest" in
  match filepathAbs W (WorkingDirectory cmd) with
  | inl err => Ok (Some err, s)
  | inr wd =>
      let absSrc := filepathJoin W wd src in
      uploadArtifacts fuel absSrc destDir s
  end.

(** The loop of [processCompose], over the calls [proc] of [process] on the
    children; [err] is the variable of that name. *)
Definition composeWith (proc : BuildCommand -> BuildSession -> Result)
  : list BuildCommand -> option error -> BuildSession -> Result :=
  fix each (subs : list BuildCommand) (err : option error) (s : BuildSession) :=
    match subs with
    | [] => Ok (err, s)
    | sub :: subs' =>
        '(err', s1) ← proc sub s;
        s2 ← match err' with
              | Some e => fail e s1
              | None => Ok s1
              end;
        each subs' err' s2
    end.

(** The [switch] of [process]; [compose] stands for [s.processCompose(cmd)],
    which calls [process] again. *)
Definition dispatchWith (compose : BuildSession -> Result)
    (cmd : BuildCommand) (s : BuildSession) : Result :=
  match kindOf (Name cmd) with
  | KStart => processStart cmd s
  | KCompose => compose s
  | KExport => processExport cmd s
  | KTest => processTest cmd s
  | KExec => processExec cmd s
  | KEcho => processEcho cmd s
  | KUploadArtifact => processUploadArtifact cmd s
  | KReport =>
      let jobState := index (Args cmd) "jobState" in
      report ← statusReport jobState s;
      Ok (None, set_Send (Send s ++ [ReportMessage (Name cmd) report]) s)
  | KEnd => Ok (None, s)
  | KOther =>
      s1 ← WriteLn "TBI command: %v" [Name cmd] s;
      Ok (None, s1)
  end.

Definition skipped (cmd : BuildCommand) (s : BuildSession) : bool :=
  bool_decide (buildStatus s ≠ "" ∧ RunIfConfig cmd ≠ "any"
               ∧ RunIfConfig cmd ≠ buildStatus s).

Fixpoint process (cmd : BuildCommand) (s : BuildSession) {struct cmd} : Result :=
  if isCanceled s then Ok (None, s)
  else if skipped cmd s then Ok (None, s)
  else
    match cmd with
    | MkBuildCommand name _ _ _ test subCommands =>
        let dispatch (s : BuildSession) : Result :=
          dispatchWith (composeWith process subCommands None) cmd s in
        match test with
        | Some (MkBuildCommandTest command expectation) =>
            '(err, s1) ← process command s;
            let success := bool_decide (err = None) in
            if decide (success ≠ expectation) then Ok (None, s1)
            else dispatch s1
        | None => dispatch s
        end
    end.

Definition processCompose (cmd : BuildCommand) (s : BuildSession) : Result :=
  composeWith process (SubCommands cmd) None s.

(** The [switch] of [process]. *)
Definition dispatch (cmd : BuildCommand) (s : BuildSession) : Result :=
  dispatchWith (processCompose cmd) cmd s.

(** [Process]: the deferred function closes the console and the [done]
    channel. *)
Definition Process (cmd : BuildCommand) (s : BuildSession) : Result :=
  '(err, s1) ← process cmd s;
  s2 ← match err with
        | Some e => fail e s1
        | None => Ok s1
        end;
  match console s2 with
  | None => Panic "nil pointer dereference"
  | Some c =>
      if done s2 then Panic "close of closed channel"
      else
        Ok (err,
            set_done true
              (set_console (Some (MkBuildConsole (consoleURL c) (calls c) true)) s2))
  end.

End Interpreter.

(** [Close], as far as the interpreter sees it: the [cancel] channel is
    closed. *)
Definition Close (s : BuildSession) : Outcome BuildSession :=
  if cancel s then Panic "close of closed channel" else Ok (set_cancel true s).

(** ** Notions used to state the properties *)

(** The run of a [compose] over its children: from session [s], the children
    return the errors [errs], one each and in order, every non-nil error is
    handed to [fail], and the session is left as [s']. *)
Inductive composeRun (proc : BuildCommand -> BuildSession -> Result)
  : list BuildCommand -> BuildSession -> list (option error) -> BuildSession -> Prop :=
  | composeRun_nil s : composeRun proc [] s [] s
  | composeRun_ok sub subs s s1 errs s' :
      proc sub s = Ok (None, s1) ->
      composeRun proc subs s1 errs s' ->
      composeRun proc (sub :: subs) s (None :: errs) s'
  | composeRun_fail sub subs s e s1 s2 errs s' :
      proc sub s = Ok (Some e, s1) ->
      fail e s1 = Ok s2 ->
      composeRun proc subs s2 errs s' ->
      composeRun proc (sub :: subs) s (Some e :: errs) s'.

(** The error of the last child, nil when there is no child. *)
Definition lastError (errs : list (option error)) : option error :=
  default None (last errs).

(** The order unset, passed, failed of the build status. *)
Definition statusRank (status : string) : nat :=
  if decide (status = "failed") then 2
  else if decide (status = "passed") then 1
  else 0.

(** Whether the tree of [cmd] (children and guards included) holds a [start]
    command that can be dispatched in a failed session: its [runIfConfig]
    lets it run there, or it has a guard, which is evaluated between the
    check of [runIfConfig] and the dispatch. *)
Fixpoint restarts (cmd : BuildCommand) : bool :=
  match cmd with
  | MkBuildCommand name _ _ runIfConfig test subCommands =>
      (match kindOf name with
       | KStart =>
           bool_decide (runIfConfig = "any" ∨ runIfConfig = "failed")
           || (match test with Some _ => true | None => false end)
       | _ => false
       end)
      || (match test with
          | Some (MkBuildCommandTest command _) => restarts command
          | None => false
          end)
      || existsb restarts subCommands
  end.

(** Starting from the value [cur], the values of [log] never step back in
    the order unset, passed, failed. *)
Fixpoint ascending (cur : string) (log : list string) : bool :=
  match log with
  | [] => true
  | v :: log' => (statusRank cur <=? statusRank v)%nat && ascending v log'
  end.

(** From session [s] to session [s'] the build status was assigned the
    values [log], in that order. *)
Definition assigned (s s' : BuildSession) (log : list string) : Prop :=
  statusLog s' = (statusLog s ++ log)%list
  /\ buildStatus s' = default (buildStatus s) (last log).

(** The build status was not assigned between [s] and [s']. *)
Definition sameStatus (s s' : BuildSession) : Prop :=
  buildStatus s' = buildStatus s /\ statusLog s' = statusLog s.

(** Between [s] and [s'] the build status never stepped back. *)
Definition advances (s s' : BuildSession) : Prop :=
  exists log, assigned s s' log /\ ascending (buildStatus s) log = true.

(** ** A small world and some commands, for the examples *)

Module Demo.

Definition noSuchFile (path : string) : error :=
  "stat " ++ path ++ ": no such file or directory".

(** One file exists; [sleep] is canceled while it runs, every other
    program exits at once without error. *)
Definition world : World := {|
  MakeFullServerURL := fun path => "https://server:8154/go" ++ path;
  urlParse := fun u => inr u;
  filepathAbs := fun p => inr p;
  filepathJoin := fun a b => a ++ "/" ++ b;
  filepathGlob := fun _ _ => inr [];
  osStat := fun _ p => if decide (p = "/wd/src/hello/4.txt") then None
                       else Some (noSuchFile p);
  BaseDirOfPathWithWildcard := fun p => p;
  execRun := fun _ arg0 _ _ =>
               if decide (arg0 = "sleep") then Canceled "" None else Exited "" None;
  BuildDestURL := fun u destDir buildId => inr (BaseURL u ++ buildId ++ "/" ++ destDir);
  Upload := fun _ _ _ _ _ => None;
  AgentRuntimeInfo := fun _ => ∅;
  caseTable := fun r => r
|}.

Definition command (name : string) (args : list (string * string))
    (runIfConfig : string) (subCommands : list BuildCommand) : BuildCommand :=
  MkBuildCommand name (list_to_map args) "/wd" runIfConfig None subCommands.

Definition start (buildId runIfConfig : string) : BuildCommand :=
  command "start" [("buildId", buildId); ("consoleURI", "/console")] runIfConfig [].
Definition compose (subCommands : list BuildCommand) : BuildCommand :=
  command "compose" [] "passed" subCommands.
Definition testFlag (flag path : string) : BuildCommand :=
  command "test" [("flag", flag); ("path", path)] "passed" [].
Definition exec (program arg : string) : BuildCommand :=
  command "exec" [("command", program); ("0", arg)] "passed" [].
Definition echo (line runIfConfig : string) : BuildCommand :=
  command "echo" [("0", line)] runIfConfig [].
Definition export (args : list (string * string)) : BuildCommand :=
  command "export" args "passed" [].
Definition reportCompleted (runIfConfig : string) : BuildCommand :=
  command "reportCompleted" [("jobState", "Completed")] runIfConfig [].
Definition endCommand : BuildCommand := command "end" [] "any" [].

(** [cmd] under the guard [test], expected to succeed or to fail. *)
Definition guarded (test : BuildCommand) (expectation : bool) (cmd : BuildCommand)
  : BuildCommand :=
  MkBuildCommand (Name cmd) (Args cmd) (WorkingDirectory cmd) (RunIfConfig cmd)
    (Some (MkBuildCommandTest test expectation)) (SubCommands cmd).

(** The session after [start] with build id 1. *)
Definition started : BuildSession :=
  MkBuildSession "passed" (Some (MakeBuildConsole "https://server:8154/go/console"))
    (Some (NewUploader "https://server:8154/go")) (Some (NewUploader "https://server:8154/go"))
    "1" (Some ∅) false false []
    (<["buildLocatorForDisplay" := ""]> (<["buildLocator" := ""]> ∅)) [] 0 ["passed"].

Definition consoleOf (entries : list ConsoleCall) : BuildConsole :=
  logged (MakeBuildConsole "https://server:8154/go/console") entries.

(** The started session after the failure of [test -x]. *)
Definition failed : BuildSession :=
  assignBuildStatus "failed"
    (set_console (Some (consoleOf [WriteLnCall "unknown test flag" []])) started).

End Demo.

(** ** Notions used to state further properties of the interpreter *)

(** Whether every command in the tree of [cmd], the children and the
    commands of the guards included, has a kind that [allowed] accepts. *)
Fixpoint allKinds (allowed : Kind -> bool) (cmd : BuildCommand) : bool :=
  match cmd with
  | MkBuildCommand name _ _ _ test subCommands =>
      allowed (kindOf name)
      && (match test with
          | Some (MkBuildCommandTest command _) => allKinds allowed command
          | None => true
          end)
      && forallb (allKinds allowed) subCommands
  end.

Definition anyKind (k : Kind) : bool := true.

Definition isKind (k k' : Kind) : bool :=
  match k, k' with
  | KStart, KStart | KCompose, KCompose | KExport, KExport | KTest, KTest
  | KExec, KExec | KEcho, KEcho | KUploadArtifact, KUploadArtifact
  | KReport, KReport | KEnd, KEnd | KOther, KOther => true
  | _, _ => false
  end.

(** Every kind but those of [ks]. *)
Definition except (ks : list Kind) (k : Kind) : bool :=
  negb (existsb (isKind k) ks).

(** The journals of the session only grow: messages sent, uploads made and
    values assigned to the build status are never retracted, the calls to
    the world are counted upwards, [done] is left as it is and a raised
    cancel signal stays raised. *)
Definition journalsGrow (s s' : BuildSession) : Prop :=
  Send s `prefix_of` Send s'
  /\ uploads s `prefix_of` uploads s'
  /\ statusLog s `prefix_of` statusLog s'
  /\ ticks s <= ticks s'
  /\ done s' = done s
  /\ (cancel s = true -> cancel s' = true).

(** The console is the same one and has lost no call; an unbound console
    stays unbound. *)
Definition consoleGrows (s s' : BuildSession) : Prop :=
  match console s with
  | None => console s' = None
  | Some c => exists entries, console s' = Some (logged c entries)
  end.

(** What [start] binds is as it was. *)
Definition sameBindings (s s' : BuildSession) : Prop :=
  buildId s' = buildId s
  /\ artifacts s' = artifacts s
  /\ properties s' = properties s
  /\ state s' = state s
  /\ consoleGrows s s'.

(** The bytes of a string. *)
Fixpoint bytesOf (str : string) : list Z :=
  match str with
  | EmptyString => []
  | String c rest => Utf8.byteOf c :: bytesOf rest
  end.

(** Whether every byte of the string is below [utf8.RuneSelf] (0x80). *)
Definition isASCII (str : string) : bool :=
  forallb (fun b => (b <? 0x80)%Z) (bytesOf str).

(** The upper case of a byte of the ASCII range. *)
Definition upperASCII (c : ascii) : ascii :=
  if ((97 <=? Utf8.byteOf c) && (Utf8.byteOf c <=? 122))%Z
  then Utf8.ofByte (Utf8.byteOf c - 32)
  else c.

(** The report that a report command sends. *)
Definition reportOf (W : World) (cmd : BuildCommand) (s : BuildSession) (result : string)
  : Message :=
  MkMessage (Name cmd)
    (MkReport (AgentRuntimeInfo W (ticks s)) (buildId s)
       (index (Args cmd) "jobState") result).

(** The destination directory that the wildcard branch of [uploadArtifacts]
    computes for a match: [destDir], a slash, and the directory of the match
    ([fileDir[baseLen:len(fileDir)-1]]) without its first [baseLen] bytes and
    without its last one. *)
Definition matchDest (baseLen : nat) (destDir file : string) : string :=
  let fileDir := fst (GoString.Split file) in
  Join "/" [destDir; substring baseLen (String.length fileDir - 1 - baseLen) fileDir].

(** The matches uploaded one after the other, each as a source without
    wildcard, until one of them fails. *)
Fixpoint uploadEach (W : World) (baseLen : nat) (destDir : string)
    (matches : list string) (s : BuildSession) : Result :=
  match matches with
  | [] => Ok (None, s)
  | file :: matches' =>
      '(err, s1) ← uploadPath W file (matchDest baseLen destDir file) s;
      match err with
      | Some e => Ok (Some e, s1)
      | None => uploadEach W baseLen destDir matches' s1
      end
  end.

(** ** A project tree with two text files, for the examples of upload *)

Module Project.

Definition files : list string := ["/wd/src/hello/3.txt"; "/wd/src/hello/4.txt"].

(** The pattern [/wd/src/hello/*.txt] matches the two files; a file whose
    name is [a*] lies in [/wd/odd] and is matched by its own name taken as a
    pattern; [make] prints a line and ends with exit status 2. *)
Definition world : World := {|
  MakeFullServerURL := fun path => "https://server:8154/go" ++ path;
  urlParse := fun u => inr u;
  filepathAbs := fun p => inr p;
  filepathJoin := fun a b => a ++ "/" ++ b;
  filepathGlob := fun _ p =>
                    if decide (p = "/wd/src/hello/*.txt") then inr files
                    else if decide (p = "/wd/odd/a*") then inr ["/wd/odd/a*"]
                    else inr [];
  osStat := fun _ p => if bool_decide (p ∈ files) then None
                       else Some (Demo.noSuchFile p);
  BaseDirOfPathWithWildcard := fun p => if decide (p = "/wd/src/hello/*.txt")
                                        then "/wd/src/" else "/wd/";
  execRun := fun _ arg0 _ _ =>
               if decide (arg0 = "make") then Exited "compiling" (Some "exit status 2")
               else Exited "" None;
  BuildDestURL := fun u destDir buildId => inr (BaseURL u ++ buildId ++ "/" ++ destDir);
  Upload := fun _ _ _ _ _ => None;
  AgentRuntimeInfo := fun _ => ∅;
  caseTable := fun r => r
|}.

End Project.


(** * The earlier build session ([package libgogoagent])

    The sources also hold the earlier version of the session: a
    [BuildSession] whose commands carry a positional argument list
    ([Args []interface{}]) and which is stopped through the channels
    [CancelChannel] and [DoneChannel]. It is embedded here under the same
    conventions. *)

Module Legacy.

(** A value of type [interface{}] as the interpreter can tell it apart: a
    string, a [map[string]interface{}] (of which it only asks whether an
    entry is a string), or anything else. *)
Inductive Value : Type :=
  | VString (s : string)
  | VMap (m : gmap string (option string))
  | VOther.

(** Modelled from the spec: the declaration of [BuildCommand] is not among
    the sources; its fields are those of section 3, but for the arguments,
    which this version of the session reads by position
    ([cmd.Args[0].(string)]). *)
Inductive BuildCommand : Type :=
  | MkBuildCommand
      (name : string) (args : list Value) (workingDirectory : string)
      (runIfConfig : string) (test : option BuildCommandTest)
      (subCommands : list BuildCommand)
with BuildCommandTest : Type :=
  | MkBuildCommandTest (command : BuildCommand) (expectation : bool).

Definition Name (cmd : BuildCommand) : string :=
  let 'MkBuildCommand n _ _ _ _ _ := cmd in n.
Definition Args (cmd : BuildCommand) : list Value :=
  let 'MkBuildCommand _ a _ _ _ _ := cmd in a.
Definition WorkingDirectory (cmd : BuildCommand) : string :=
  let 'MkBuildCommand _ _ w _ _ _ := cmd in w.
Definition RunIfConfig (cmd : BuildCommand) : string :=
  let 'MkBuildCommand _ _ _ r _ _ := cmd in r.
Definition Test (cmd : BuildCommand) : option BuildCommandTest :=
  let 'MkBuildCommand _ _ _ _ t _ := cmd in t.
Definition SubCommands (cmd : BuildCommand) : list BuildCommand :=
  let 'MkBuildCommand _ _ _ _ _ l := cmd in l.
Definition Command (t : BuildCommandTest) : BuildCommand :=
  let 'MkBuildCommandTest c _ := t in c.
Definition Expectation (t : BuildCommandTest) : bool :=
  let 'MkBuildCommandTest _ e := t in e.

(** Modelled from the spec: [MakeMessage] is not among the sources; the
    message is known by the three operands of the call (section 6: the action,
    the type of the data, the report). *)
Record Message : Type := MkMessage {
  Action : string;
  Type_ : string;
  Data : Report
}.

(** Modelled from the spec: [BuildConsole] is not among the sources; as in
    section 4.2 it is represented by the calls made on it, and by the number
    of values that the session has sent on its [Stop] channel. *)
Record BuildConsole : Type := MkBuildConsole {
  consoleURI : string;
  calls : list ConsoleCall;
  stops : nat
}.

(** The fields of the Go struct that the interpreter reads or writes, the
    state of the two channels ([cancelClosed], [doneClosed]: the channel is
    closed; [closeWaiting]: a [Close] is blocked in its send on
    [CancelChannel]), and what the session does outside the struct: the
    messages put on [Send], the store of [SetState] and the number of calls
    to the world. *)
Record BuildSession : Type := MkBuildSession {
  BuildStatus : string;
  Console : option BuildConsole;
  ArtifactUploadBaseUrl : string;
  PropertyBaseUrl : string;
  BuildId : string;
  Envs : option (gmap string string);
  Stopping : bool;
  cancelClosed : bool;
  doneClosed : bool;
  closeWaiting : bool;
  Send : list Message;
  state : gmap string string;
  ticks : nat
}.

Definition set_BuildStatus (v : string) (s : BuildSession) : BuildSession :=
  MkBuildSession v (Console s) (ArtifactUploadBaseUrl s) (PropertyBaseUrl s)
    (BuildId s) (Envs s) (Stopping s) (cancelClosed s) (doneClosed s) (closeWaiting s) (Send s)
    (state s) (ticks s).
Definition set_Console (v : option BuildConsole) (s : BuildSession) : BuildSession :=
  MkBuildSession (BuildStatus s) v (ArtifactUploadBaseUrl s) (PropertyBaseUrl s)
    (BuildId s) (Envs s) (Stopping s) (cancelClosed s) (doneClosed s) (closeWaiting s)
    (Send s) (state s) (ticks s).
Definition set_ArtifactUploadBaseUrl (v : string) (s : BuildSession) : BuildSession :=
  MkBuildSession (BuildStatus s) (Console s) v (PropertyBaseUrl s) (BuildId s)
    (Envs s) (Stopping s) (cancelClosed s) (doneClosed s) (closeWaiting s) (Send s)
    (state s) (ticks s).
Definition set_PropertyBaseUrl (v : string) (s : BuildSession) : BuildSession :=
  MkBuildSession (BuildStatus s) (Console s) (ArtifactUploadBaseUrl s) v (BuildId s)
    (Envs s) (Stopping s) (cancelClosed s) (doneClosed s) (closeWaiting s) (Send s)
    (state s) (ticks s).
Definition set_BuildId (v : string) (s : BuildSession) : BuildSession :=
  MkBuildSession (BuildStatus s) (Console s) (ArtifactUploadBaseUrl s)
    (PropertyBaseUrl s) v (Envs s) (Stopping s) (cancelClosed s) (doneClosed s)
    (closeWaiting s) (Send s) (state s) (ticks s).
Definition set_Envs (v : option (gmap string string)) (s : BuildSession) : BuildSession :=
  MkBuildSession (BuildStatus s) (Console s) (ArtifactUploadBaseUrl s)
    (PropertyBaseUrl s) (BuildId s) v (Stopping s) (cancelClosed s) (doneClosed s)
    (closeWaiting s) (Send s) (state s) (ticks s).
Definition set_Stopping (v : bool) (s : BuildSession) : BuildSession :=
  MkBuildSession (BuildStatus s) (Console s) (ArtifactUploadBaseUrl s)
    (PropertyBaseUrl s) (BuildId s) (Envs s) v (cancelClosed s) (doneClosed s)
    (closeWaiting s) (Send s) (state s) (ticks s).
Definition set_cancelClosed (v : bool) (s : BuildSession) : BuildSession :=
  MkBuildSession (BuildStatus s) (Console s) (ArtifactUploadBaseUrl s)
    (PropertyBaseUrl s) (BuildId s) (Envs s) (Stopping s) v (doneClosed s)
    (closeWaiting s) (Send s) (state s) (ticks s).
Definition set_doneClosed (v : bool) (s : BuildSession) : BuildSession :=
  MkBuildSession (BuildStatus s) (Console s) (ArtifactUploadBaseUrl s)
    (PropertyBaseUrl s) (BuildId s) (Envs s) (Stopping s) (cancelClosed s) v
    (closeWaiting s) (Send s) (state s) (ticks s).
Definition set_closeWaiting (v : bool) (s : BuildSession) : BuildSession :=
  MkBuildSession (BuildStatus s) (Console s) (ArtifactUploadBaseUrl s)
    (PropertyBaseUrl s) (BuildId s) (Envs s) (Stopping s) (cancelClosed s)
    (doneClosed s) v (Send s) (state s) (ticks s).
Definition set_Send (v : list Message) (s : BuildSession) : BuildSession :=
  MkBuildSession (BuildStatus s) (Console s) (ArtifactUploadBaseUrl s)
    (PropertyBaseUrl s) (BuildId s) (Envs s) (Stopping s) (cancelClosed s)
    (doneClosed s) (closeWaiting s) v (state s) (ticks s).
Definition set_state (v : gmap string string) (s : BuildSession) : BuildSession :=
  MkBuildSession (BuildStatus s) (Console s) (ArtifactUploadBaseUrl s)
    (PropertyBaseUrl s) (BuildId s) (Envs s) (Stopping s) (cancelClosed s)
    (doneClosed s) (closeWaiting s) (Send s) v (ticks s).
Definition set_ticks (v : nat) (s : BuildSession) : BuildSession :=
  MkBuildSession (BuildStatus s) (Console s) (ArtifactUploadBaseUrl s)
    (PropertyBaseUrl s) (BuildId s) (Envs s) (Stopping s) (cancelClosed s)
    (doneClosed s) (closeWaiting s) (Send s) (state s) v.

(** [MakeBuildSession] *)
Definition MakeBuildSession : BuildSession :=
  MkBuildSession "" None "" "" "" None false false false false [] ∅ 0.

Definition tick (s : BuildSession) : BuildSession := set_ticks (S (ticks s)) s.

Definition SetState (key value : string) (s : BuildSession) : BuildSession :=
  set_state (<[key := value]> (state s)) s.

(** [v.(string)] for the element [v] of a slice, [None] standing for an
    index out of range. *)
Definition asString (v : option Value) : Outcome string :=
  match v with
  | Some (VString str) => Ok str
  | Some _ => Panic "interface conversion"
  | None => Panic "index out of range"
  end.

(** [settings[key].(string)] *)
Definition setting (settings : gmap string (option string)) (key : string)
  : Outcome string :=
  match settings !! key with
  | Some (Some str) => Ok str
  | _ => Panic "interface conversion"
  end.

Fixpoint convertToStringSlice (slice : list Value) : Outcome (list string) :=
  match slice with
  | [] => Ok []
  | element :: slice' =>
      str ← asString (Some element);
      rest ← convertToStringSlice slice';
      Ok (str :: rest)
  end.

Inductive Kind : Type :=
  | KStart | KCompose | KExport | KTest | KExec | KEcho
  | KReportCurrentStatus | KReportDone | KEnd | KOther.

(** The [switch cmd.Name] of [process]. *)
Definition kindOf (name : string) : Kind :=
  if decide (name = "start") then KStart
  else if decide (name = "compose") then KCompose
  else if decide (name = "export") then KExport
  else if decide (name = "test") then KTest
  else if decide (name = "exec") then KExec
  else if decide (name = "echo") then KEcho
  else if decide (name = "reportCurrentStatus") then KReportCurrentStatus
  else if decide (name = "reportCompleting") then KReportDone
  else if decide (name = "reportCompleted") then KReportDone
  else if decide (name = "end") then KEnd
  else KOther.

Definition Result : Type := Outcome (option error * BuildSession).

(** The console after the further calls [entries]. *)
Definition logged (c : BuildConsole) (entries : list ConsoleCall) : BuildConsole :=
  MkBuildConsole (consoleURI c) (calls c ++ entries) (stops c).

(** [Console.WriteLn(line)]; a call through the nil console is taken to be a
    nil dereference. *)
Definition WriteLn (line : string) (s : BuildSession) : Outcome BuildSession :=
  match Console s with
  | None => Panic "nil pointer dereference"
  | Some c => Ok (set_Console (Some (logged c [WriteLnCall line []])) s)
  end.

(** [Console.Write(data)], called for the output of a subprocess; no call is
    made when there is no output. *)
Definition Write (data : string) (s : BuildSession) : Outcome BuildSession :=
  if decide (data = "") then Ok s
  else
    match Console s with
    | None => Panic "nil pointer dereference"
    | Some c => Ok (set_Console (Some (logged c [WriteCall data])) s)
    end.

(** The loop of [processEcho] over the argument list. *)
Fixpoint echoArgs (args : list Value) (s : BuildSession) : Outcome BuildSession :=
  match args with
  | [] => Ok s
  | arg :: args' =>
      line ← asString (Some arg);
      s1 ← WriteLn line s;
      echoArgs args' s1
  end.

(** The loop of [processExport] over the entries of [newEnvs]:
    [s.Envs[key] = value.(string)]. *)
Fixpoint assignEach (entries : list (string * option string)) (s : BuildSession)
  : Outcome BuildSession :=
  match entries with
  | [] => Ok s
  | (key, value) :: entries' =>
      str ← match value with
            | Some str => Ok str
            | None => Panic "interface conversion"
            end;
      match Envs s with
      | None => Panic "assignment to entry in nil map"
      | Some m => assignEach entries' (set_Envs (Some (<[key := str]> m)) s)
      end
  end.

(** Whether the [select] of [process] and of [processExec] can receive from
    [CancelChannel]: a [Close] waits in its send, or the channel is closed. *)
Definition cancelReceived (s : BuildSession) : bool :=
  closeWaiting s || cancelClosed s.

(** The receive from [CancelChannel], which lets a waiting [Close] go on,
    followed by [s.Stopping = true]. *)
Definition stop (s : BuildSession) : BuildSession :=
  set_Stopping true (set_closeWaiting false s).

(** The conditional skip of [process]. *)
Definition skipped (cmd : BuildCommand) (s : BuildSession) : bool :=
  bool_decide (BuildStatus s ≠ "" ∧ RunIfConfig cmd ≠ "any"
               ∧ RunIfConfig cmd ≠ BuildStatus s).

(** [&BuildCommand{Name: "echo", Args: args}], the command that
    [processExport] makes up to list the environment. *)
Definition generatedEcho (args : list Value) : BuildCommand :=
  MkBuildCommand "echo" args "" "" None [].

Section Interpreter.

Variable W : World.

(** The order in which [range] yields the entries of a map, which Go leaves
    open. *)
Variable range : forall A : Type, gmap string A -> list (string * A).

(** [statusReport]; [capitalize] is the same function in both versions of the
    session. *)
Definition statusReport (jobState : string) (s : BuildSession) : Outcome Report :=
  result ← capitalize W (BuildStatus s);
  Ok (MkReport (AgentRuntimeInfo W (ticks s)) (BuildId s) jobState result).

Definition makeReportMessage (name status : string) (s : BuildSession)
  : Outcome Message :=
  report ← statusReport status s;
  Ok (MkMessage name "com.thoughtworks.go.websocket.Report" report).

Definition processEcho (cmd : BuildCommand) (s : BuildSession) : Result :=
  s1 ← echoArgs (Args cmd) s;
  Ok (None, s1).

Definition processTest (cmd : BuildCommand) (s : BuildSession) : Result :=
  flag ← asString (Args cmd !! 0);
  targetPath ← asString (Args cmd !! 1);
  if decide ("-d" = flag) then Ok (osStat W (ticks s) targetPath, tick s)
  else Ok (Some "unknown test flag", s).

(** [processExec]: what [Run] returns is dropped, and the error of [Kill] is
    only logged. *)
Definition processExec (cmd : BuildCommand) (s : BuildSession) : Result :=
  arg0 ← asString (Args cmd !! 0);
  args ← convertToStringSlice (drop 1 (Args cmd));
  match execRun W (ticks s) arg0 args (WorkingDirectory cmd) with
  | Canceled output _ =>
      s1 ← Write output (tick s);
      Ok (None, stop s1)
  | Exited output _ =>
      s1 ← Write output (tick s);
      Ok (None, s1)
  end.

Definition processStart (cmd : BuildCommand) (s : BuildSession) : Result :=
  match Args cmd !! 0 with
  | None => Panic "index out of range"
  | Some arg =>
      let settings := match arg with VMap m => m | _ => ∅ end in
      buildLocator ← setting settings "buildLocator";
      buildLocatorForDisplay ← setting settings "buildLocatorForDisplay";
      consoleURI ← setting settings "consoleURI";
      artifactUploadBaseUrl ← setting settings "artifactUploadBaseUrl";
      propertyBaseUrl ← setting settings "propertyBaseUrl";
      buildId ← setting settings "buildId";
      let s := SetState "buildLocator" buildLocator s in
      let s := SetState "buildLocatorForDisplay" buildLocatorForDisplay s in
      let s := set_Console (Some (MkBuildConsole consoleURI [] 0)) s in
      let s := set_ArtifactUploadBaseUrl artifactUploadBaseUrl s in
      let s := set_PropertyBaseUrl propertyBaseUrl s in
      let s := set_BuildId buildId s in
      let s := set_Envs (Some ∅) s in
      let s := set_BuildStatus "passed" s in
      Ok (None, s)
  end.

(** [s.process(&BuildCommand{Name: "echo", Args: args})], the call by which
    [processExport] lists the environment: [process] on a command that has
    no guard and no children. *)
Definition processGeneratedEcho (args : list Value) (s : BuildSession) : Result :=
  if Stopping s then Ok (None, s)
  else if cancelReceived s then Ok (None, stop s)
  else if skipped (generatedEcho args) s then Ok (None, s)
  else processEcho (generatedEcho args) s.

(** [processExport]; what the listing returns is dropped. *)
Definition processExport (cmd : BuildCommand) (s : BuildSession) : Result :=
  match Args cmd with
  | arg :: _ =>
      match arg with
      | VMap newEnvs =>
          s1 ← assignEach (range _ newEnvs) s;
          Ok (None, s1)
      | _ => Panic "interface conversion"
      end
  | [] =>
      let args :=
        match Envs s with
        | Some envs => map (fun kv => VString (exportLine kv)) (range _ envs)
        | None => []
        end in
      '(_, s1) ← processGeneratedEcho args s;
      Ok (None, s1)
  end.

(** The loop of [processCompose] over the calls [proc] of [process]. *)
Definition composeWith (proc : BuildCommand -> BuildSession -> Result)
  : list BuildCommand -> option error -> BuildSession -> Result :=
  fix each (subs : list BuildCommand) (err : option error) (s : BuildSession) :=
    match subs with
    | [] => Ok (err, s)
    | sub :: subs' =>
        '(err', s1) ← proc sub s;
        let s2 := match err' with
                  | Some _ => set_BuildStatus "failed" s1
                  | None => s1
                  end in
        each subs' err' s2
    end.

(** The [switch] of [process]. *)
Definition dispatchWith (compose : BuildSession -> Result)
    (cmd : BuildCommand) (s : BuildSession) : Result :=
  match kindOf (Name cmd) with
  | KStart => processStart cmd s
  | KCompose => compose s
  | KExport => processExport cmd s
  | KTest => processTest cmd s
  | KExec => processExec cmd s
  | KEcho => processEcho cmd s
  | KReportCurrentStatus =>
      status ← asString (Args cmd !! 0);
      msg ← makeReportMessage (Name cmd) status s;
      Ok (None, set_Send (Send s ++ [msg]) s)
  | KReportDone =>
      msg ← makeReportMessage (Name cmd) "" s;
      Ok (None, set_Send (Send s ++ [msg]) s)
  | KEnd =>
      match Console s with
      | None => Panic "nil pointer dereference"
      | Some c =>
          Ok (None,
              set_Console
                (Some (MkBuildConsole (consoleURI c) (calls c) (S (stops c)))) s)
      end
  | KOther =>
      processEcho
        (MkBuildCommand "" [VString ("TBI command: " ++ Name cmd)] "" "" None []) s
  end.

Fixpoint process (cmd : BuildCommand) (s : BuildSession) {struct cmd} : Result :=
  if Stopping s then Ok (None, s)
  else if cancelReceived s then Ok (None, stop s)
  else if skipped cmd s then Ok (None, s)
  else
    match cmd with
    | MkBuildCommand name _ _ _ test subCommands =>
        let dispatch (s : BuildSession) : Result :=
          dispatchWith (composeWith process subCommands None) cmd s in
        match test with
        | Some (MkBuildCommandTest command expectation) =>
            '(err, s1) ← process command s;
            let success := bool_decide (err = None) in
            if decide (success ≠ expectation) then Ok (None, s1)
            else dispatch s1
        | None => dispatch s
        end
    end.

Definition processCompose (cmd : BuildCommand) (s : BuildSession) : Result :=
  composeWith process (SubCommands cmd) None s.

Definition dispatch (cmd : BuildCommand) (s : BuildSession) : Result :=
  dispatchWith (processCompose cmd) cmd s.

(** [Process]: the deferred function closes the two channels, and closing a
    closed channel panics. *)
Definition Process (cmd : BuildCommand) (s : BuildSession) : Result :=
  '(err, s1) ← process cmd (set_Stopping false s);
  if cancelClosed s1 || doneClosed s1 then Panic "close of closed channel"
  else Ok (err, set_doneClosed true (set_cancelClosed true s1)).

End Interpreter.

(** [Close] up to its send on [CancelChannel]: the send panics on a closed
    channel and waits for the session to receive otherwise. *)
Definition Close (s : BuildSession) : Outcome BuildSession :=
  if cancelClosed s then Panic "send on closed channel"
  else Ok (set_closeWaiting true s).

(** Whether every command in the tree of [cmd] has a kind that [allowed]
    accepts. *)
Fixpoint allKinds (allowed : Kind -> bool) (cmd : BuildCommand) : bool :=
  match cmd with
  | MkBuildCommand name _ _ _ test subCommands =>
      allowed (kindOf name)
      && (match test with
          | Some (MkBuildCommandTest command _) => allKinds allowed command
          | None => true
          end)
      && forallb (allKinds allowed) subCommands
  end.

Definition notTest (k : Kind) : bool :=
  match k with KTest => false | _ => true end.

(** A session in which the environment is only there once the build has a
    status, as it is in a new session. *)
Definition started (s : BuildSession) : Prop :=
  BuildStatus s = "" -> Envs s = None.

(** The six settings that [processStart] reads. *)
Definition startSettings : list string :=
  ["buildLocator"; "buildLocatorForDisplay"; "consoleURI";
   "artifactUploadBaseUrl"; "propertyBaseUrl"; "buildId"].

(** A [start] command that carries all its settings as strings. *)
Definition startable (cmd : BuildCommand) : Prop :=
  exists settings, Args cmd !! 0 = Some (VMap settings)
    /\ Forall (fun key => exists str, settings !! key = Some (Some str))
         startSettings.

(** The order of [map_to_list], one of the orders that [range] can take. *)
Definition someOrder (A : Type) (m : gmap string A) : list (string * A) :=
  map_to_list m.

(** ** A build for the earlier session *)

Definition settings : gmap string (option string) :=
  list_to_map
    [("buildLocator", Some "up42/1/stage/1/job");
     ("buildLocatorForDisplay", Some "up42/1/stage/1/job");
     ("consoleURI", Some "/console");
     ("artifactUploadBaseUrl", Some "/files");
     ("propertyBaseUrl", Some "/properties");
     ("buildId", Some "1")].

Definition command (name : string) (args : list Value) (runIfConfig : string)
    (subCommands : list BuildCommand) : BuildCommand :=
  MkBuildCommand name args "/wd" runIfConfig None subCommands.

Definition start : BuildCommand := command "start" [VMap settings] "" [].

(** The session after [start]. *)
Definition begun : BuildSession :=
  MkBuildSession "passed" (Some (MkBuildConsole "/console" [] 0)) "/files"
    "/properties" "1" (Some ∅) false false false false []
    (<["buildLocatorForDisplay" := "up42/1/stage/1/job"]>
       (<["buildLocator" := "up42/1/stage/1/job"]> ∅)) 0.

(** A build that sets a variable, runs [make], lists the environment and
    reports. *)
Definition build : BuildCommand :=
  command "compose" [] ""
    [start;
     command "export" [VMap {[ "GOPATH" := Some "/go" ]}] "passed" [];
     command "exec" [VString "make"; VString "all"] "passed" [];
     command "export" [] "passed" [];
     command "reportCompleted" [] "any" []].

End Legacy.


(** * Properties *)

(** ** The helpers on small inputs *)

Example basename_of_file : GoString.basename "/wd/src/hello/4.txt" = "4.txt".
Proof. reflexivity. Qed.

Example basename_of_directory : GoString.basename "/wd/src/" = "src".
Proof. reflexivity. Qed.

Example basename_of_root : GoString.basename "/" = "/".
Proof. reflexivity. Qed.

Example Split_of_path :
  GoString.Split "/wd/src/hello/4.txt" = ("/wd/src/hello/", "4.txt").
Proof. reflexivity. Qed.

Example sortStrings_is_bytewise :
  GoString.sortStrings ["b"; "a"; "B"; "ab"] = ["B"; "a"; "ab"; "b"].
Proof. vm_compute. reflexivity. Qed.

Example runes_of_ascii : Utf8.runes "passed" = [112; 97; 115; 115; 101; 100]%Z.
Proof. reflexivity. Qed.

(** h, e-acute, the euro sign, an emoji, a stray byte, !, a truncated
    sequence and a surrogate half. *)
Example runes_of_bytes :
  Utf8.runes
    (Utf8.stringOfBytes
       [0x68; 0xC3; 0xA9; 0xE2; 0x82; 0xAC; 0xF0; 0x9F; 0x98; 0x80; 0xFF; 0x21;
        0xE2; 0x82; 0xED; 0xA0; 0x80]%Z)
  = [0x68; 0xE9; 0x20AC; 0x1F600; 0xFFFD; 0x21; 0xFFFD; 0xFFFD; 0xFFFD; 0xFFFD;
     0xFFFD]%Z.
Proof. vm_compute. reflexivity. Qed.

Example string_of_runes :
  Utf8.stringOfRunes [0x68; 0xE9; 0x20AC; 0x1F600; 0xFFFD; 0xD800; -1]%Z
  = Utf8.stringOfBytes
      [0x68; 0xC3; 0xA9; 0xE2; 0x82; 0xAC; 0xF0; 0x9F; 0x98; 0x80; 0xEF; 0xBF;
       0xBD; 0xEF; 0xBF; 0xBD; 0xEF; 0xBF; 0xBD]%Z.
Proof. vm_compute. reflexivity. Qed.

Example start_runs :
  process Demo.world 0 (Demo.start "1" "passed") MakeBuildSession
  = Ok (None, Demo.started).
Proof. vm_compute. reflexivity. Qed.

Example failure_is_recorded :
  process Demo.world 0
    (Demo.compose [Demo.start "1" "passed"; Demo.testFlag "-x" "/wd"])
    MakeBuildSession
  = Ok (Some "unknown test flag", Demo.failed).
Proof. vm_compute. reflexivity. Qed.

(** ** Induction on command trees *)

Lemma BuildCommand_tree_ind (P : BuildCommand -> Prop) :
  (forall name args wd rif test subs,
      match test with
      | Some (MkBuildCommandTest c _) => P c
      | None => True
      end ->
      Forall P subs ->
      P (MkBuildCommand name args wd rif test subs)) ->
  forall cmd, P cmd.
Proof.
  intros step. fix IH 1. intros [name args wd rif test subs]. apply step.
  - destruct test as [[c e]|]; [apply IH|exact I].
  - induction subs as [|x l IHl]; constructor; [apply IH|exact IHl].
Qed.

(** ** The pipeline of [process] *)

Section Pipeline.

Variable W : World.
Variable fuel : nat.

(** [process] is the cancellation check, the conditional skip, the guard
    and the dispatch, in this order. *)
Lemma process_unfold cmd s :
  process W fuel cmd s =
    if isCanceled s then Ok (None, s)
    else if skipped cmd s then Ok (None, s)
    else
      match Test cmd with
      | Some t =>
          '(err, s1) ← process W fuel (Command t) s;
          if decide (bool_decide (err = None) ≠ Expectation t) then Ok (None, s1)
          else dispatch W fuel cmd s1
      | None => dispatch W fuel cmd s
      end.
Proof.
  destruct cmd as [name args wd rif [[c e]|] subs]; simpl;
    destruct (isCanceled s); try reflexivity;
    destruct (skipped _ s); try reflexivity.
Qed.

Lemma process_canceled cmd s :
  isCanceled s = true -> process W fuel cmd s = Ok (None, s).
Proof. intros H. rewrite process_unfold, H. reflexivity. Qed.

Lemma process_skipped cmd s :
  skipped cmd s = true -> process W fuel cmd s = Ok (None, s).
Proof. intros H. rewrite process_unfold, H. destruct (isCanceled s); reflexivity. Qed.

Lemma composeWith_canceled subs : forall err0 s,
  isCanceled s = true ->
  composeWith (process W fuel) subs err0 s
  = Ok (match subs with [] => err0 | _ => None end, s).
Proof.
  induction subs as [|sub subs IH]; intros err0 s Hc; simpl; [reflexivity|].
  rewrite process_canceled by assumption. simpl.
  rewrite IH by assumption. destruct subs; reflexivity.
Qed.

End Pipeline.

Lemma composeWith_app proc pre post : forall err0 s,
  composeWith proc (pre ++ post) err0 s =
    '(e, s1) ← composeWith proc pre err0 s; composeWith proc post e s1.
Proof.
  induction pre as [|sub pre IH]; intros err0 s; simpl; [reflexivity|].
  destruct (proc sub s) as [[e s1]| |]; simpl; try reflexivity.
  destruct (match e with Some e0 => fail e0 s1 | None => Ok s1 end); simpl;
    [apply IH|reflexivity|reflexivity].
Qed.

(** ** The console *)

Lemma logged_nil c : logged c [] = c.
Proof. destruct c. unfold logged. simpl. rewrite app_nil_r. reflexivity. Qed.

Lemma logged_logged c l1 l2 : logged (logged c l1) l2 = logged c (l1 ++ l2).
Proof. unfold logged. simpl. rewrite app_assoc. reflexivity. Qed.

Lemma set_console_same s c : console s = Some c -> set_console (Some c) s = s.
Proof. destruct s. simpl. intros ->. reflexivity. Qed.

Lemma WriteLn_bound format operands s c :
  console s = Some c ->
  WriteLn format operands s
  = Ok (set_console (Some (logged c [WriteLnCall format operands])) s).
Proof. intros Hc. unfold WriteLn. rewrite Hc. reflexivity. Qed.

Lemma writeLines_bound lines : forall s c,
  console s = Some c ->
  writeLines lines s
  = Ok (set_console (Some (logged c (map (fun l => WriteLnCall l []) lines))) s).
Proof.
  induction lines as [|l lines IH]; intros s c Hc; simpl.
  - rewrite logged_nil, set_console_same by assumption. reflexivity.
  - rewrite (WriteLn_bound _ _ _ _ Hc). simpl.
    rewrite (IH _ (logged c [WriteLnCall l []])) by reflexivity.
    rewrite logged_logged. reflexivity.
Qed.

(** ** The order of [sort.Strings] *)

Lemma Ascii_compare_Lt_trans a b c :
  Ascii.compare a b = Lt -> Ascii.compare b c = Lt -> Ascii.compare a c = Lt.
Proof.
  unfold Ascii.compare. rewrite !N.compare_lt_iff. apply N.lt_trans.
Qed.

Lemma String_compare_trans a : forall b c,
  String.compare a b ≠ Gt -> String.compare b c ≠ Gt -> String.compare a c ≠ Gt.
Proof.
  induction a as [|x a IH]; intros [|y b] [|z c]; simpl; try congruence.
  destruct (Ascii.compare x y) eqn:Hxy; try congruence.
  - apply Ascii.compare_eq_iff in Hxy. subst y.
    destruct (Ascii.compare x z) eqn:Hxz; try congruence. apply IH.
  - destruct (Ascii.compare y z) eqn:Hyz; try congruence.
    + apply Ascii.compare_eq_iff in Hyz. subst z. rewrite Hxy. congruence.
    + rewrite (Ascii_compare_Lt_trans _ _ _ Hxy Hyz). congruence.
Qed.

Lemma GoString_le_total : Total GoString.le.
Proof. intros a b. apply String.leb_total. Qed.

Lemma GoString_le_trans : Transitive GoString.le.
Proof.
  intros a b c. unfold GoString.le, String.leb. intros Hab Hbc.
  pose proof (String_compare_trans a b c) as H.
  destruct (String.compare a b), (String.compare b c), (String.compare a c);
    try discriminate; try reflexivity; exfalso; apply H; congruence.
Qed.

Lemma GoString_le_antisym : AntiSymm (=) GoString.le.
Proof. intros a b. apply String.leb_antisym. Qed.

#[local] Existing Instance GoString_le_total.
#[local] Existing Instance GoString_le_trans.
#[local] Existing Instance GoString_le_antisym.

(** Sorting forgets the order in which a [range] over a map yields its
    bindings. *)
Lemma sortStrings_order_independent (l1 l2 : list string) :
  l1 ≡ₚ l2 -> GoString.sortStrings l1 = GoString.sortStrings l2.
Proof.
  intros Hp. apply (Sorted_unique GoString.le).
  - apply (Sorted_merge_sort GoString.le).
  - apply (Sorted_merge_sort GoString.le).
  - unfold GoString.sortStrings. rewrite !merge_sort_Permutation. exact Hp.
Qed.

(** ** Compose *)

Lemma default_last_cons {A} (d x : A) (l : list A) :
  default d (last (x :: l)) = default x (last l).
Proof. rewrite last_cons. destruct (last l); reflexivity. Qed.

Lemma default_last_app {A} (d : A) (l1 l2 : list A) :
  default d (last (l1 ++ l2)) = default (default d (last l1)) (last l2).
Proof. rewrite last_app. destruct (last l2); reflexivity. Qed.

(** The loop of [processCompose] returns exactly when its children can be
    run one after the other, and then it returns what the last child
    returned (or the initial value of [err] when there is no child). *)
Lemma composeWith_run proc subs : forall err0 s err s',
  composeWith proc subs err0 s = Ok (err, s') <->
  exists errs, composeRun proc subs s errs s' /\ err = default err0 (last errs).
Proof.
  induction subs as [|sub subs IH]; intros err0 s err s'; simpl.
  - split.
    + intros [= <- <-]. exists []. split; [constructor|reflexivity].
    + intros (errs & Hrun & ->). inversion Hrun; subst. reflexivity.
  - split.
    + intros H.
      destruct (proc sub s) as [[[e|] s1]| |] eqn:Hp; simpl in H; try discriminate.
      * destruct (fail e s1) as [s2| |] eqn:Hf; simpl in H; try discriminate.
        apply IH in H as (errs & Hrun & ->).
        exists (Some e :: errs). split; [econstructor; eassumption|].
        symmetry. apply default_last_cons.
      * apply IH in H as (errs & Hrun & ->).
        exists (None :: errs). split; [econstructor; eassumption|].
        symmetry. apply default_last_cons.
    + intros (errs & Hrun & ->). inversion Hrun; subst.
      * rewrite H1. simpl. apply IH. eexists. split; [eassumption|].
        apply default_last_cons.
      * rewrite H1. simpl. rewrite H2. simpl. apply IH. eexists.
        split; [eassumption|]. apply default_last_cons.
Qed.

Lemma composeRun_length proc subs s errs s' :
  composeRun proc subs s errs s' -> length errs = length subs.
Proof. induction 1; simpl; congruence. Qed.

(** C1, as the code has it. [processCompose] returns [(err, s')] exactly when
    its children, taken in order from the session [s], return errors [errs]
    (one per child), each non-nil error having been handed to [fail] before
    the next child starts, and leave the session [s']; the error returned is
    then the one returned by the last child: nil when the last child
    succeeded, whatever the children before it did, and nil when there is no
    child. *)
Theorem compose_returns_error_of_last_child W fuel cmd s err s' :
  processCompose W fuel cmd s = Ok (err, s') <->
  exists errs,
    composeRun (process W fuel) (SubCommands cmd) s errs s'
    /\ length errs = length (SubCommands cmd)
    /\ err = lastError errs.
Proof.
  unfold processCompose, lastError. rewrite composeWith_run. split.
  - intros (errs & Hrun & ->). exists errs.
    split; [exact Hrun|]. split; [|reflexivity].
    eapply composeRun_length. exact Hrun.
  - intros (errs & Hrun & _ & ->). exists errs. split; [exact Hrun|reflexivity].
Qed.

(** C1 as stated fails: the first child of this compose fails with
    "unknown test flag", no later child fails, and yet the compose returns
    nil and not that error. *)
Lemma compose_forgets_earlier_failure :
  let children := [Demo.testFlag "-x" "/wd"; Demo.endCommand] in
  process Demo.world 0 (Demo.testFlag "-x" "/wd") Demo.started
  = Ok (Some "unknown test flag", Demo.started)
  /\ processCompose Demo.world 0 (Demo.compose children) Demo.started
     = Ok (None, Demo.failed).
Proof. split; vm_compute; reflexivity. Qed.

(** ** Cancellation during [exec] *)

Lemma processExec_canceled W cmd s c output killErr :
  console s = Some c ->
  execRun W (ticks s) (index (Args cmd) "command")
    (ExtractArgList cmd (Z.of_nat (size (Args cmd)) - 1)) (WorkingDirectory cmd)
  = Canceled output killErr ->
  exists s1 c1,
    processExec W cmd s = Ok (Some (formatMap (Args cmd) ++ " is canceled"), s1)
    /\ console s1 = Some c1
    /\ buildStatus s1 = buildStatus s /\ isCanceled s1 = true /\ Send s1 = Send s.
Proof.
  intros Hc Hrun. unfold processExec. rewrite Hrun. unfold Write, WriteLn.
  destruct (decide (output = "")); simpl; rewrite ?Hc; simpl;
    destruct killErr; simpl; rewrite ?Hc; simpl;
    do 2 eexists; (split; [reflexivity|]); simpl; eauto.
Qed.

Lemma fail_bound err s c :
  console s = Some c ->
  exists s1 c1,
    fail err s = Ok s1 /\ console s1 = Some c1 /\ buildStatus s1 = "failed"
    /\ isCanceled s1 = isCanceled s /\ Send s1 = Send s
    /\ (buildStatus s ≠ "failed" -> last (calls c1) = Some (WriteLnCall err [])).
Proof.
  intros Hc. unfold fail.
  destruct (decide (buildStatus s ≠ "failed")) as [Hs|Hs].
  - rewrite (WriteLn_bound _ _ _ _ Hc). simpl. do 2 eexists.
    split; [reflexivity|]. simpl. repeat split; auto.
    intros _. apply last_snoc.
  - do 2 eexists. split; [reflexivity|]. repeat split; eauto.
    + destruct (decide (buildStatus s = "failed")); [assumption|contradiction].
    + intros H. contradiction.
Qed.

(** C2, as the code has it. Let [exec] be a child of a compose, reached in a
    started session [s1] that is not canceled, and let the cancel signal be
    raised while its subprocess runs. Then [processExec] returns the error
    "<args> is canceled", the compose hands it to [fail], and the compose
    ends with [buildStatus] equal to "failed"; the message is written to the
    console when the status was not "failed" before. No message is put on
    [Send], and every command processed afterwards, a report command
    included, returns nil and leaves the session as it is. The compose
    itself returns the canceled error when [exec] is its last child and nil
    otherwise. *)
Theorem cancel_during_exec_marks_failed
    W fuel cmd pre exec rest s e0 s1 c output killErr :
  SubCommands cmd = (pre ++ exec :: rest)%list ->
  composeWith (process W fuel) pre None s = Ok (e0, s1) ->
  isCanceled s1 = false ->
  skipped exec s1 = false ->
  Test exec = None ->
  kindOf (Name exec) = KExec ->
  console s1 = Some c ->
  execRun W (ticks s1) (index (Args exec) "command")
    (ExtractArgList exec (Z.of_nat (size (Args exec)) - 1)) (WorkingDirectory exec)
  = Canceled output killErr ->
  let canceled := formatMap (Args exec) ++ " is canceled" in
  exists err s' c',
    processCompose W fuel cmd s = Ok (err, s')
    /\ err = match rest with [] => Some canceled | _ => None end
    /\ buildStatus s' = "failed"
    /\ Send s' = Send s1
    /\ console s' = Some c'
    /\ (buildStatus s1 ≠ "failed" -> last (calls c') = Some (WriteLnCall canceled []))
    /\ forall later, process W fuel later s' = Ok (None, s').
Proof.
  intros Hsubs Hpre Hc Hskip Htest Hkind Hcon Hrun canceled.
  destruct (processExec_canceled W exec s1 c output killErr Hcon Hrun)
    as (s2 & c2 & Hexec & Hcon2 & Hst2 & Hcan2 & Hsend2).
  destruct (fail_bound canceled s2 c2 Hcon2)
    as (s3 & c3 & Hfail & Hcon3 & Hst3 & Hcan3 & Hsend3 & Hlast).
  exists (match rest with [] => Some canceled | _ => None end), s3, c3.
  split.
  - unfold processCompose. rewrite Hsubs, composeWith_app, Hpre. simpl.
    rewrite process_unfold, Hc, Hskip, Htest.
    unfold dispatch, dispatchWith. rewrite Hkind, Hexec. simpl.
    fold canceled. rewrite Hfail. simpl.
    apply composeWith_canceled. congruence.
  - split; [reflexivity|]. split; [assumption|]. split; [congruence|].
    split; [assumption|]. split; [intros H; apply Hlast; congruence|].
    intros later. apply process_canceled. congruence.
Qed.

Lemma cancel_during_exec_marks_failed_witness :
  exists s',
    processCompose Demo.world 0
      (Demo.compose [Demo.echo "building" "passed"; Demo.exec "sleep" "60";
                     Demo.reportCompleted "any"]) Demo.started = Ok (None, s')
    /\ buildStatus s' = "failed" /\ Send s' = [].
Proof.
  destruct (cancel_during_exec_marks_failed Demo.world 0
              (Demo.compose [Demo.echo "building" "passed"; Demo.exec "sleep" "60";
                             Demo.reportCompleted "any"])
              [Demo.echo "building" "passed"] (Demo.exec "sleep" "60")
              [Demo.reportCompleted "any"] Demo.started None
              (set_console (Some (Demo.consoleOf [WriteLnCall "building" []]))
                 Demo.started)
              (Demo.consoleOf [WriteLnCall "building" []]) "" None)
    as (err & s' & c' & Hrun & Herr & Hstatus & Hsend & _);
    try (vm_compute; reflexivity).
  exists s'. rewrite Hrun, Herr. repeat split; assumption.
Defined.

(** C2 as stated fails: the session has passed so far, [sleep] is canceled
    while it runs, and the session ends with [buildStatus] "failed"; the
    report command that follows is ignored, so that no report with result
    "Passed" (nor any other) is sent. *)
Lemma cancel_marks_session_failed :
  let cmd := Demo.compose [Demo.exec "sleep" "60"; Demo.reportCompleted "any"] in
  buildStatus Demo.started = "passed"
  /\ exists s', Process Demo.world 0 cmd Demo.started = Ok (None, s')
                /\ buildStatus s' = "failed" /\ Send s' = [].
Proof. split; [reflexivity|]. eexists. vm_compute. repeat split. Qed.

(** ** Where the build status is assigned *)

Lemma sameStatus_refl s : sameStatus s s.
Proof. split; reflexivity. Qed.

Lemma sameStatus_trans s1 s2 s3 :
  sameStatus s1 s2 -> sameStatus s2 s3 -> sameStatus s1 s3.
Proof. intros [H1 H2] [H3 H4]. split; congruence. Qed.

Lemma WriteLn_status format operands s s' :
  WriteLn format operands s = Ok s' -> sameStatus s s'.
Proof.
  unfold WriteLn. destruct (console s); [|discriminate].
  intros [= <-]. split; reflexivity.
Qed.

Lemma Write_status data s s' : Write data s = Ok s' -> sameStatus s s'.
Proof.
  unfold Write. destruct (decide (data = "")).
  - intros [= <-]. apply sameStatus_refl.
  - destruct (console s); [|discriminate]. intros [= <-]. split; reflexivity.
Qed.

Lemma writeLines_status lines : forall s s',
  writeLines lines s = Ok s' -> sameStatus s s'.
Proof.
  induction lines as [|l lines IH]; intros s s'; simpl.
  - intros [= <-]. apply sameStatus_refl.
  - destruct (WriteLn l [] s) as [s1| |] eqn:Hw; simpl; try discriminate.
    intros H. eapply sameStatus_trans; [eapply WriteLn_status; eassumption|eauto].
Qed.

Section Status.

Variable W : World.

Lemma processExport_status cmd s e s' :
  processExport cmd s = Ok (e, s') -> sameStatus s s'.
Proof.
  unfold processExport. destruct (decide (0 < size (Args cmd))).
  - destruct (envs s); [|discriminate]. intros [= <- <-]. split; reflexivity.
  - destruct (writeLines _ s) as [s1| |] eqn:Hw; simpl; try discriminate.
    intros [= <- <-]. eapply writeLines_status; eassumption.
Qed.

Lemma processEcho_status cmd s e s' :
  processEcho cmd s = Ok (e, s') -> sameStatus s s'.
Proof.
  unfold processEcho.
  destruct (writeLines _ s) as [s1| |] eqn:Hw; simpl; try discriminate.
  intros [= <- <-]. eapply writeLines_status; eassumption.
Qed.

Lemma processTest_status cmd s e s' :
  processTest W cmd s = Ok (e, s') -> sameStatus s s'.
Proof.
  unfold processTest. destruct (decide _); intros [= <- <-]; split; reflexivity.
Qed.

Lemma processExec_status cmd s e s' :
  processExec W cmd s = Ok (e, s') -> sameStatus s s'.
Proof.
  unfold processExec. destruct (execRun _ _ _ _ _) as [output err|output killErr].
  - destruct (Write output (tick s)) as [s1| |] eqn:Hw; simpl; try discriminate.
    intros [= <- <-]. apply Write_status in Hw. exact Hw.
  - destruct (Write output (set_cancel true (tick s))) as [s1| |] eqn:Hw; simpl;
      try discriminate.
    apply Write_status in Hw. destruct killErr as [k|]; simpl.
    + destruct (WriteLn _ _ s1) as [s2| |] eqn:Hw2; simpl; try discriminate.
      intros [= <- <-]. apply WriteLn_status in Hw2.
      eapply sameStatus_trans; [|exact Hw2]. exact Hw.
    + intros [= <- <-]. exact Hw.
Qed.

Lemma uploadPath_status source destDir s e s' :
  uploadPath W source destDir s = Ok (e, s') -> sameStatus s s'.
Proof.
  unfold uploadPath. destruct (osStat W (ticks s) source).
  - intros [= <- <-]. split; reflexivity.
  - destruct (WriteLn _ _ (tick s)) as [s1| |] eqn:Hw; simpl; try discriminate.
    apply WriteLn_status in Hw.
    destruct (artifacts s1); [|discriminate].
    destruct Hw as [H1 H2]. simpl in H1, H2.
    destruct (BuildDestURL _ _ _ _); intros [= <- <-]; split; simpl; congruence.
Qed.

Lemma uploadArtifacts_status fuel : forall source destDir s e s',
  uploadArtifacts W fuel source destDir s = Ok (e, s') -> sameStatus s s'.
Proof.
  induction fuel as [|fuel IH]; intros source destDir s e s'; simpl;
    destruct (GoString.Contains source "*"); try discriminate;
    try apply uploadPath_status.
  destruct (filepathGlob W (ticks s) source) as [err|matches].
  - intros [= <- <-]. split; reflexivity.
  - assert (Htick : sameStatus s (tick s)) by (split; reflexivity).
    revert Htick. generalize (tick s) as s0.
    induction matches as [|file matches IHm]; intros s0 Hs0.
    + intros [= <- <-]. exact Hs0.
    + destruct (decide _); [|discriminate].
      destruct (uploadArtifacts W fuel file _ s0) as [[[e1|] s1]| |] eqn:Hu; simpl;
        try discriminate; apply IH in Hu.
      * intros [= <- <-]. eapply sameStatus_trans; eassumption.
      * apply IHm. eapply sameStatus_trans; eassumption.
Qed.

(** Of the commands that are not made of other commands, only [start]
    assigns the build status. *)
Lemma dispatchWith_status fuel compose cmd s e s' :
  kindOf (Name cmd) ≠ KStart ->
  kindOf (Name cmd) ≠ KCompose ->
  dispatchWith W fuel compose cmd s = Ok (e, s') -> sameStatus s s'.
Proof.
  intros Hk Hc. unfold dispatchWith. destruct (kindOf (Name cmd)); try contradiction.
  - apply processExport_status.
  - apply processTest_status.
  - apply processExec_status.
  - apply processEcho_status.
  - unfold processUploadArtifact. destruct (filepathAbs W _).
    + intros [= <- <-]. apply sameStatus_refl.
    + apply uploadArtifacts_status.
  - destruct (statusReport W _ s); simpl; try discriminate.
    intros [= <- <-]. split; reflexivity.
  - intros [= <- <-]. apply sameStatus_refl.
  - destruct (WriteLn _ _ s) as [s1| |] eqn:Hw; simpl; try discriminate.
    intros [= <- <-]. eapply WriteLn_status; eassumption.
Qed.

End Status.

Lemma ascending_app l1 : forall cur l2,
  ascending cur l1 = true ->
  ascending (default cur (last l1)) l2 = true ->
  ascending cur (l1 ++ l2) = true.
Proof.
  induction l1 as [|v l1 IH]; intros cur l2 H1 H2; simpl in *; [exact H2|].
  apply andb_true_iff in H1 as [Hv H1]. apply andb_true_iff. split; [exact Hv|].
  apply IH; [exact H1|]. rewrite default_last_cons in H2. exact H2.
Qed.

Lemma statusRank_le_2 v : statusRank v <= 2.
Proof. unfold statusRank. repeat case_decide; lia. Qed.

Lemma statusRank_failed v : 2 <= statusRank v -> v = "failed".
Proof. unfold statusRank. repeat case_decide; [auto|lia|lia]. Qed.

(** After "failed" only "failed" can follow. *)
Lemma ascending_failed log : forall cur,
  cur = "failed" ->
  ascending cur log = true ->
  Forall (fun v => v = "failed") log /\ default cur (last log) = "failed".
Proof.
  induction log as [|v log IH]; intros cur Hcur; simpl.
  - intros _. split; [constructor|exact Hcur].
  - intros H. apply andb_true_iff in H as [Hv Hlog].
    apply Nat.leb_le in Hv. rewrite Hcur in Hv.
    assert (Hf : v = "failed") by (apply statusRank_failed; exact Hv).
    destruct (IH v Hf Hlog) as [Hall Hlast].
    split; [constructor; assumption|].
    rewrite default_last_cons. exact Hlast.
Qed.

Lemma advances_refl s : advances s s.
Proof.
  exists []. split; [split|]; simpl;
    [symmetry; apply app_nil_r|reflexivity|reflexivity].
Qed.

Lemma advances_same s s' : sameStatus s s' -> advances s s'.
Proof.
  intros [H1 H2]. exists []. split; [split|]; simpl;
    [rewrite app_nil_r; exact H2|exact H1|reflexivity].
Qed.

Lemma advances_trans s1 s2 s3 : advances s1 s2 -> advances s2 s3 -> advances s1 s3.
Proof.
  intros (l1 & [Hl1 Hb1] & Ha1) (l2 & [Hl2 Hb2] & Ha2).
  exists (l1 ++ l2)%list. split; [split|].
  - rewrite Hl2, Hl1. symmetry. apply app_assoc.
  - rewrite Hb2, Hb1. symmetry. apply default_last_app.
  - apply ascending_app; [exact Ha1|]. rewrite <- Hb1. exact Ha2.
Qed.

Lemma fail_advances err s s' : fail err s = Ok s' -> advances s s'.
Proof.
  unfold fail. destruct (decide (buildStatus s ≠ "failed")).
  - destruct (WriteLn err [] s) as [s1| |] eqn:Hw; simpl; try discriminate.
    intros [= <-]. apply WriteLn_status in Hw as [Hb Hl].
    exists ["failed"]. split; [split|]; simpl.
    + rewrite Hl. reflexivity.
    + reflexivity.
    + rewrite andb_true_r. apply Nat.leb_le. apply (statusRank_le_2 (buildStatus s)).
  - intros [= <-]. apply advances_refl.
Qed.

(** [start] assigns "passed": no step back unless the status was
    "failed". *)
Lemma processStart_advances W cmd s e s' :
  buildStatus s ≠ "failed" ->
  processStart W cmd s = Ok (e, s') -> advances s s'.
Proof.
  intros Hs. unfold processStart. destruct (urlParse W _).
  - intros [= <- <-]. apply advances_same. split; reflexivity.
  - intros [= <- <-]. exists ["passed"]. split; [split|]; simpl; try reflexivity.
    rewrite andb_true_r. apply Nat.leb_le. unfold statusRank.
    destruct (decide (buildStatus s = "failed")); [contradiction|].
    case_decide; simpl; lia.
Qed.

Lemma composeWith_advances proc subs :
  Forall (fun sub => forall s e s', proc sub s = Ok (e, s') -> advances s s') subs ->
  forall err0 s e s', composeWith proc subs err0 s = Ok (e, s') -> advances s s'.
Proof.
  induction 1 as [|sub subs Hsub _ IH]; intros err0 s e s'; simpl.
  - intros [= <- <-]. apply advances_refl.
  - destruct (proc sub s) as [[e1 s1]| |] eqn:Hp; simpl; try discriminate.
    apply Hsub in Hp.
    destruct e1 as [e1|]; simpl.
    + destruct (fail e1 s1) as [s2| |] eqn:Hf; simpl; try discriminate.
      apply fail_advances in Hf. intros H. apply IH in H.
      eauto using advances_trans.
    + intros H. apply IH in H. eauto using advances_trans.
Qed.

Lemma existsb_false_Forall {A} (f : A -> bool) l :
  existsb f l = false -> Forall (fun x => f x = false) l.
Proof.
  induction l as [|x l IH]; simpl; [constructor|].
  intros H. apply orb_false_iff in H as [Hx Hl]. constructor; auto.
Qed.

Lemma process_advances W fuel cmd :
  restarts cmd = false ->
  forall s e s', process W fuel cmd s = Ok (e, s') -> advances s s'.
Proof.
  induction cmd as [name args wd rif test subs IHtest IHsubs]
    using BuildCommand_tree_ind.
  intros Hr s e s'.
  simpl in Hr. apply orb_false_iff in Hr as [Hr Hsubs].
  apply orb_false_iff in Hr as [Hstart Htest].
  assert (Hchildren : forall s0 e0 err0 s0',
             composeWith (process W fuel) subs err0 s0 = Ok (e0, s0') ->
             advances s0 s0').
  { intros s0 e0 err0 s0'. apply composeWith_advances.
    apply existsb_false_Forall in Hsubs.
    rewrite Forall_forall in IHsubs, Hsubs. apply Forall_forall.
    intros sub Hin s1 e1 s1' Hp. exact (IHsubs sub Hin (Hsubs sub Hin) s1 e1 s1' Hp). }
  assert (Hother : kindOf name ≠ KStart -> forall s0 e0 s0',
             dispatch W fuel (MkBuildCommand name args wd rif test subs) s0
             = Ok (e0, s0') -> advances s0 s0').
  { intros Hk s0 e0 s0'. unfold dispatch.
    destruct (kindOf name) eqn:Hkind; try contradiction;
      try (intros H; apply advances_same;
           apply (dispatchWith_status W fuel _ _ _ _) in H;
           [exact H|simpl; congruence|simpl; congruence]).
    unfold dispatchWith, processCompose. simpl. rewrite Hkind. apply Hchildren. }
  rewrite process_unfold.
  destruct (isCanceled s); [intros [= <- <-]; apply advances_refl|].
  destruct (skipped _ s) eqn:Hskip; [intros [= <- <-]; apply advances_refl|].
  simpl Test. destruct test as [[c ex]|].
  - assert (Hk : kindOf name ≠ KStart).
    { intros Hk. rewrite Hk in Hstart. rewrite orb_true_r in Hstart. discriminate. }
    simpl. destruct (process W fuel c s) as [[err s1]| |] eqn:Hp; simpl;
      try discriminate.
    apply (IHtest Htest) in Hp.
    destruct (decide _).
    + intros [= <- <-]. exact Hp.
    + intros H. apply (Hother Hk) in H. eauto using advances_trans.
  - destruct (kindOf name) eqn:Hkind; try (apply Hother; congruence).
    unfold dispatch, dispatchWith. simpl. rewrite Hkind.
    apply processStart_advances.
    rewrite orb_false_r in Hstart. apply bool_decide_eq_false in Hstart.
    unfold skipped in Hskip. apply bool_decide_eq_false in Hskip. simpl in Hskip.
    intros Hf. apply Hskip. rewrite Hf.
    repeat split; [discriminate| |]; intros ->; apply Hstart; auto.
Qed.

(** C3, as the code has it. Take a command whose tree holds no [start]
    command with [runIfConfig] "failed" or "any" and no [start] command
    under a guard. When [process] returns on it, the values [log] that were
    assigned to [buildStatus] meanwhile, taken in order after the value it
    had before, never step back in the order unset, passed, failed; in
    particular, from a failed session every value assigned is "failed" and
    the session is left failed. *)
Theorem buildStatus_never_steps_back W fuel cmd s e s' :
  restarts cmd = false ->
  process W fuel cmd s = Ok (e, s') ->
  exists log,
    assigned s s' log
    /\ ascending (buildStatus s) log = true
    /\ (buildStatus s = "failed" ->
        Forall (fun v => v = "failed") log /\ buildStatus s' = "failed").
Proof.
  intros Hr Hp.
  destruct (process_advances W fuel cmd Hr s e s' Hp) as (log & Hlog & Hasc).
  exists log. split; [exact Hlog|]. split; [exact Hasc|].
  intros Hf. destruct (ascending_failed log (buildStatus s) Hf Hasc) as [Hall Hlast].
  split; [exact Hall|]. destruct Hlog as [_ ->]. exact Hlast.
Qed.

Lemma buildStatus_never_steps_back_witness :
  exists log,
    assigned MakeBuildSession Demo.failed log
    /\ ascending (buildStatus MakeBuildSession) log = true
    /\ (buildStatus MakeBuildSession = "failed" ->
        Forall (fun v => v = "failed") log /\ buildStatus Demo.failed = "failed").
Proof.
  apply (buildStatus_never_steps_back Demo.world 0
           (Demo.compose [Demo.start "1" "passed"; Demo.testFlag "-x" "/wd"])
           MakeBuildSession (Some "unknown test flag") Demo.failed).
  - reflexivity.
  - vm_compute. reflexivity.
Defined.

(** C3 as stated fails: after [start] and a failing [test], a second
    [start] with [runIfConfig] "any" is dispatched in the failed session and
    assigns "passed": the successive values are passed, failed, passed. *)
Lemma start_resets_failed_status :
  let cmd := Demo.compose [Demo.start "1" "passed"; Demo.testFlag "-x" "/wd";
                           Demo.start "2" "any"] in
  exists s', process Demo.world 0 cmd MakeBuildSession = Ok (None, s')
             /\ statusLog s' = ["passed"; "failed"; "passed"]
             /\ buildStatus s' = "passed".
Proof. eexists. vm_compute. repeat split. Qed.

(** ** Commands before, and after, [start] *)

(** C4, as the code has it: the interpreter has no gate on [start]. A command
    without guard that is processed in a session that is not canceled and
    whose [buildStatus] is unset is dispatched, whatever its name and its
    [runIfConfig]; and a [start] command that is not skipped is dispatched
    whether or not a [start] has run before: it binds a new console, empties
    [envs], and assigns the build id and the status "passed" again. *)
Theorem no_start_gate W fuel cmd s :
  isCanceled s = false ->
  Test cmd = None ->
  (buildStatus s = "" -> process W fuel cmd s = dispatch W fuel cmd s)
  /\ (kindOf (Name cmd) = KStart ->
      skipped cmd s = false ->
      forall curl,
        urlParse W (MakeFullServerURL W (index (Args cmd) "consoleURI")) = inr curl ->
        exists s',
          process W fuel cmd s = Ok (None, s')
          /\ buildStatus s' = "passed"
          /\ statusLog s' = (statusLog s ++ ["passed"])%list
          /\ buildId s' = index (Args cmd) "buildId"
          /\ envs s' = Some ∅
          /\ console s' = Some (MakeBuildConsole curl)).
Proof.
  intros Hc Ht. split.
  - intros Hs. rewrite process_unfold, Hc, Ht.
    unfold skipped. rewrite bool_decide_eq_false_2; [reflexivity|].
    intros (H & _). contradiction.
  - intros Hk Hskip curl Hurl. rewrite process_unfold, Hc, Hskip, Ht.
    unfold dispatch, dispatchWith. rewrite Hk. unfold processStart. rewrite Hurl.
    eexists. split; [reflexivity|]. simpl. repeat split.
Qed.

Lemma no_start_gate_witness :
  process Demo.world 0 (Demo.testFlag "-d" "/missing") MakeBuildSession
  = dispatch Demo.world 0 (Demo.testFlag "-d" "/missing") MakeBuildSession
  /\ exists s',
       process Demo.world 0 (Demo.start "2" "passed") Demo.started = Ok (None, s')
       /\ buildStatus s' = "passed"
       /\ statusLog s' = ["passed"; "passed"]
       /\ buildId s' = "2"
       /\ envs s' = Some ∅
       /\ console s' = Some (MakeBuildConsole "https://server:8154/go/console").
Proof.
  split.
  - apply (no_start_gate Demo.world 0 (Demo.testFlag "-d" "/missing")
             MakeBuildSession); reflexivity.
  - apply (no_start_gate Demo.world 0 (Demo.start "2" "passed") Demo.started);
      reflexivity.
Defined.

(** C4 as stated fails: before any [start], [test -d] is dispatched (it
    calls [os.Stat] and returns its error); and the second [start] of a
    compose runs as the first did, leaving the build id 2. *)
Lemma commands_run_without_start :
  process Demo.world 0 (Demo.testFlag "-d" "/missing") MakeBuildSession
  = Ok (Some (Demo.noSuchFile "/missing"), tick MakeBuildSession)
  /\ exists s', process Demo.world 0
                  (Demo.compose [Demo.start "1" "passed"; Demo.start "2" "passed"])
                  MakeBuildSession = Ok (None, s')
                /\ statusLog s' = ["passed"; "passed"] /\ buildId s' = "2".
Proof.
  split; [vm_compute; reflexivity|]. eexists. vm_compute. repeat split.
Qed.

(** ** The conditional skip and the guard *)

(** C5. A command whose [runIfConfig] is neither "any" nor the build status,
    processed while the build status is set, returns nil and leaves the
    session exactly as it was: every field of the struct, the console, the
    messages sent, the uploads and the calls to the world. *)
Theorem skipped_command_changes_nothing W fuel cmd s :
  buildStatus s ≠ "" ->
  RunIfConfig cmd ≠ "any" ->
  RunIfConfig cmd ≠ buildStatus s ->
  process W fuel cmd s = Ok (None, s).
Proof.
  intros Hset Hany Hne. apply process_skipped.
  unfold skipped. apply bool_decide_eq_true. auto.
Qed.

Lemma skipped_command_changes_nothing_witness :
  process Demo.world 0 (Demo.echo "cleanup" "failed") Demo.started
  = Ok (None, Demo.started).
Proof.
  apply (skipped_command_changes_nothing Demo.world 0
           (Demo.echo "cleanup" "failed") Demo.started); discriminate.
Defined.

(** C7. A command with a guard that passes the cancellation check and the
    conditional skip first processes the command of the guard; with the
    error [err] and the session [s1] that this leaves, the command is
    dispatched (in [s1]) if [err == nil] equals the expectation of the guard,
    and otherwise [process] returns nil, in [s1], without dispatching. *)
Theorem guard_decides_dispatch W fuel cmd t s :
  Test cmd = Some t ->
  isCanceled s = false ->
  skipped cmd s = false ->
  process W fuel cmd s =
    '(err, s1) ← process W fuel (Command t) s;
    if bool_decide (bool_decide (err = None) = Expectation t)
    then dispatch W fuel cmd s1
    else Ok (None, s1).
Proof.
  intros Ht Hc Hs. rewrite process_unfold, Hc, Hs, Ht.
  destruct (process W fuel (Command t) s) as [[err s1]| |]; simpl; try reflexivity.
  destruct (decide (bool_decide (err = None) ≠ Expectation t)) as [Hn|Hn].
  - rewrite bool_decide_eq_false_2 by exact Hn. reflexivity.
  - rewrite bool_decide_eq_true_2; [reflexivity|].
    destruct (decide (bool_decide (err = None) = Expectation t));
      [assumption|contradiction].
Qed.

Lemma guard_decides_dispatch_witness :
  process Demo.world 0
    (Demo.guarded (Demo.testFlag "-d" "/missing") true (Demo.echo "deploy" "passed"))
    Demo.started
  = Ok (None, tick Demo.started)
  /\ process Demo.world 0
       (Demo.guarded (Demo.testFlag "-d" "/missing") false (Demo.echo "skip" "passed"))
       Demo.started
     = Ok (None,
           set_console (Some (Demo.consoleOf [WriteLnCall "skip" []]))
             (tick Demo.started)).
Proof.
  split.
  - rewrite (guard_decides_dispatch Demo.world 0 _
               (MkBuildCommandTest (Demo.testFlag "-d" "/missing") true)
               Demo.started); reflexivity.
  - rewrite (guard_decides_dispatch Demo.world 0 _
               (MkBuildCommandTest (Demo.testFlag "-d" "/missing") false)
               Demo.started); reflexivity.
Defined.

(** ** Failure *)

(** C6. In a session with a console whose status is not yet "failed", [fail]
    makes one [WriteLn] call with the message of the error and assigns
    "failed"; the calls of [fail] that follow, with any errors, change
    nothing, and in general [fail] changes nothing in a session whose status
    is "failed". *)
Theorem fail_is_idempotent err errs s c :
  buildStatus s ≠ "failed" ->
  console s = Some c ->
  let s1 := assignBuildStatus "failed"
              (set_console (Some (logged c [WriteLnCall err []])) s) in
  fail err s = Ok s1
  /\ buildStatus s1 = "failed"
  /\ failEach errs s1 = Ok s1
  /\ forall e s', buildStatus s' = "failed" -> fail e s' = Ok s'.
Proof.
  intros Hs Hc s1.
  assert (later : forall e s', buildStatus s' = "failed" -> fail e s' = Ok s').
  { intros e s' Hs'. unfold fail.
    destruct (decide (buildStatus s' ≠ "failed")); [contradiction|reflexivity]. }
  split; [|split; [reflexivity|split; [|exact later]]].
  - unfold fail, WriteLn.
    destruct (decide (buildStatus s ≠ "failed")); [|contradiction].
    rewrite Hc. reflexivity.
  - induction errs as [|e errs IH]; [reflexivity|].
    cbn [failEach]. rewrite later by reflexivity. exact IH.
Qed.

Lemma fail_is_idempotent_witness :
  fail "unknown test flag" Demo.started = Ok Demo.failed
  /\ failEach ["exit status 1"; "exit status 2"] Demo.failed = Ok Demo.failed.
Proof.
  destruct (fail_is_idempotent "unknown test flag" ["exit status 1"; "exit status 2"]
              Demo.started (MakeBuildConsole "https://server:8154/go/console"))
    as (Hfirst & _ & Hlater & _).
  - discriminate.
  - reflexivity.
  - split; [exact Hfirst|exact Hlater].
Defined.

(** ** Export *)

(** C8. With arguments, [export] overlays them on the [envs] of a started
    session, the arguments winning over the bindings already there, and
    nothing else changes: the console receives no call. Without arguments,
    [export] makes one [WriteLn] call per binding of [envs], with the line
    "export KEY=VALUE" of the binding, and the lines are in the order of
    [sort.Strings], whatever the order in which the map yields its
    bindings. *)
Theorem export_overlays_or_lists cmd s :
  (forall m,
      0 < size (Args cmd) ->
      envs s = Some m ->
      processExport cmd s = Ok (None, set_envs (Some (Args cmd ∪ m)) s)
      /\ forall key,
           (Args cmd ∪ m) !! key
           = match Args cmd !! key with
             | Some value => Some value
             | None => m !! key
             end)
  /\ (forall c,
         size (Args cmd) = 0 ->
         console s = Some c ->
         let lines :=
           GoString.sortStrings (map exportLine (map_to_list (default ∅ (envs s)))) in
         processExport cmd s
         = Ok (None,
               set_console (Some (logged c (map (fun l => WriteLnCall l []) lines))) s)
         /\ lines ≡ₚ map exportLine (map_to_list (default ∅ (envs s)))
         /\ Sorted GoString.le lines
         /\ forall order,
              order ≡ₚ map_to_list (default ∅ (envs s)) ->
              GoString.sortStrings (map exportLine order) = lines).
Proof.
  split.
  - intros m Hsize Hm. split.
    + unfold processExport. destruct (decide (0 < size (Args cmd))); [|contradiction].
      rewrite Hm. reflexivity.
    + intros key. rewrite lookup_union.
      destruct (Args cmd !! key), (m !! key); reflexivity.
  - intros c Hsize Hc lines. split; [|split; [|split]].
    + unfold processExport.
      destruct (decide (0 < size (Args cmd))) as [H|_]; [rewrite Hsize in H; lia|].
      fold lines. rewrite (writeLines_bound lines s c Hc). reflexivity.
    + apply merge_sort_Permutation.
    + apply (Sorted_merge_sort GoString.le).
    + intros order Hp. apply sortStrings_order_independent.
      apply Permutation_map. exact Hp.
Qed.

Lemma export_overlays_or_lists_witness :
  let s := set_envs (Some {["JAVA_HOME" := "/usr"; "CI" := "true"]}) Demo.started in
  processExport (Demo.export [("JAVA_HOME", "/opt/jdk")]) s
  = Ok (None,
        set_envs (Some (Args (Demo.export [("JAVA_HOME", "/opt/jdk")])
                        ∪ {["JAVA_HOME" := "/usr"; "CI" := "true"]})) s)
  /\ processExport (Demo.export []) s
     = Ok (None,
           set_console
             (Some (Demo.consoleOf
                      [WriteLnCall "export CI=true" [];
                       WriteLnCall "export JAVA_HOME=/usr" []])) s).
Proof.
  intros s. split.
  - apply (export_overlays_or_lists (Demo.export [("JAVA_HOME", "/opt/jdk")]) s).
    + vm_compute. lia.
    + reflexivity.
  - destruct (proj2 (export_overlays_or_lists (Demo.export []) s)
                (MakeBuildConsole "https://server:8154/go/console"))
      as (Hrun & _); [reflexivity|reflexivity|].
    rewrite Hrun. vm_compute. reflexivity.
Defined.

(** ** Upload of a source without wildcard *)

(** C9. For a source without wildcard that [os.Stat] finds, in a started
    session: [uploadArtifacts] first makes the [WriteLn] call
    "Uploading artifacts from %v to %v" with the source and the description
    of [destDir], which is "[defaultRoot]" when [destDir] is empty and
    [destDir] otherwise; then, unless [BuildDestURL] fails, it calls [Upload]
    with the destination path [destDir + "/" + basename(source)], or
    [basename(source)] when [destDir] is empty, and returns what [Upload]
    returns. *)
Theorem plain_source_upload W fuel source destDir s c uploader :
  GoString.Contains source "*" = false ->
  osStat W (ticks s) source = None ->
  console s = Some c ->
  artifacts s = Some uploader ->
  let destPath :=
    if decide (destDir = "") then GoString.basename source
    else destDir ++ "/" ++ GoString.basename source in
  let description := if decide (destDir = "") then "[defaultRoot]" else destDir in
  let s1 :=
    set_console
      (Some (logged c [WriteLnCall "Uploading artifacts from %v to %v"
                         [source; description]])) (tick s) in
  destDescription destDir = description
  /\ uploadArtifacts W fuel source destDir s
     = match BuildDestURL W uploader destDir (buildId s) with
       | inl err => Ok (Some err, s1)
       | inr destURL =>
           Ok (Upload W (S (ticks s)) uploader source destPath destURL,
               tick (set_uploads (uploads s ++ [(source, destPath, destURL)]) s1))
       end.
Proof.
  intros Hplain Hstat Hc Hu destPath description s1.
  split; [reflexivity|].
  assert (Hup : uploadArtifacts W fuel source destDir s = uploadPath W source destDir s).
  { destruct fuel; simpl; rewrite Hplain; reflexivity. }
  rewrite Hup. unfold uploadPath. rewrite Hstat.
  unfold WriteLn. simpl. rewrite Hc. simpl. rewrite Hu.
  unfold destDescription, destPath, description, s1.
  destruct (decide (destDir = "")) as [->|Hd].
  - destruct (decide ("" ≠ "")) as [H|_]; [contradiction|]. reflexivity.
  - destruct (decide (destDir ≠ "")) as [_|H]; [|contradiction]. reflexivity.
Qed.

Lemma plain_source_upload_witness :
  uploadArtifacts Demo.world 0 "/wd/src/hello/4.txt" "dest/subdir" Demo.started
  = Ok (None,
        tick (set_uploads
                [("/wd/src/hello/4.txt", "dest/subdir/4.txt",
                  "https://server:8154/go1/dest/subdir")]
                (set_console
                   (Some (Demo.consoleOf
                            [WriteLnCall "Uploading artifacts from %v to %v"
                               ["/wd/src/hello/4.txt"; "dest/subdir"]]))
                   (tick Demo.started))))
  /\ uploadArtifacts Demo.world 0 "/wd/src/hello/4.txt" "" Demo.started
     = Ok (None,
           tick (set_uploads
                   [("/wd/src/hello/4.txt", "4.txt", "https://server:8154/go1/")]
                   (set_console
                      (Some (Demo.consoleOf
                               [WriteLnCall "Uploading artifacts from %v to %v"
                                  ["/wd/src/hello/4.txt"; "[defaultRoot]"]]))
                      (tick Demo.started)))).
Proof.
  split.
  - apply (plain_source_upload Demo.world 0 "/wd/src/hello/4.txt" "dest/subdir"
             Demo.started (MakeBuildConsole "https://server:8154/go/console")
             (NewUploader "https://server:8154/go")); reflexivity.
  - apply (plain_source_upload Demo.world 0 "/wd/src/hello/4.txt" ""
             Demo.started (MakeBuildConsole "https://server:8154/go/console")
             (NewUploader "https://server:8154/go")); reflexivity.
Defined.

(** ** Capitalize *)

(** C10. [capitalize] panics on the empty string (index out of range).
    Hence a report command dispatched while [buildStatus] is unset panics,
    and so does [process] on such a command when the session is not canceled
    and the command has no guard: no error is returned. On a non-empty
    string, [capitalize] returns the string of the runes of its argument
    with the first one replaced by its upper case and the others as they
    are. *)
Theorem capitalize_panics_on_empty W :
  capitalize W "" = Panic "index out of range"
  /\ (forall fuel cmd s,
         kindOf (Name cmd) = KReport ->
         buildStatus s = "" ->
         dispatch W fuel cmd s = Panic "index out of range"
         /\ (isCanceled s = false -> Test cmd = None ->
             process W fuel cmd s = Panic "index out of range"))
  /\ (forall str,
         str ≠ "" ->
         exists a0 a,
           Utf8.runes str = a0 :: a
           /\ capitalize W str
              = Ok (Utf8.stringOfRunes (Utf8.ToUpper (caseTable W) a0 :: a))).
Proof.
  split; [reflexivity|]. split.
  - intros fuel cmd s Hk Hs.
    assert (Hd : dispatch W fuel cmd s = Panic "index out of range").
    { unfold dispatch, dispatchWith. rewrite Hk. unfold statusReport. rewrite Hs.
      reflexivity. }
    split; [exact Hd|]. intros Hc Ht. rewrite process_unfold, Hc, Ht.
    unfold skipped. rewrite bool_decide_eq_false_2; [exact Hd|].
    intros (H & _). contradiction.
  - intros [|c rest] Hne; [contradiction|].
    unfold capitalize, Utf8.runes. simpl.
    destruct (Utf8.DecodeRuneInString c rest) as [r width]. eauto.
Qed.

Lemma capitalize_panics_on_empty_witness :
  process Demo.world 0 (Demo.reportCompleted "any") MakeBuildSession
  = Panic "index out of range"
  /\ capitalize Demo.world "passed" = Ok "Passed".
Proof.
  split.
  - apply (proj1 (proj2 (capitalize_panics_on_empty Demo.world))); reflexivity.
  - destruct (proj2 (proj2 (capitalize_panics_on_empty Demo.world)) "passed")
      as (a0 & a & Hr & Hcap); [discriminate|].
    rewrite Hcap. injection Hr as <- <-. reflexivity.
Defined.

(** * Further properties of the interpreter *)

(** ** Frames: what a run of [process] leaves alone *)

(** A relation [R] between the session before and after that is kept by
    every primitive step of the commands of the [allowed] kinds is kept by
    [process] on every tree made of such commands. *)
Section Frame.

Variable W : World.
Variable fuel : nat.
Variable R : BuildSession -> BuildSession -> Prop.
Variable allowed : Kind -> bool.

Hypothesis R_refl : forall s, R s s.
Hypothesis R_trans : forall s1 s2 s3, R s1 s2 -> R s2 s3 -> R s1 s3.
Hypothesis R_console : forall s c entries,
  console s = Some c -> R s (set_console (Some (logged c entries)) s).
Hypothesis R_tick : forall s, R s (tick s).
Hypothesis R_cancel : allowed KExec = true -> forall s, R s (set_cancel true s).
Hypothesis R_uploads : allowed KUploadArtifact = true ->
  forall s x, R s (set_uploads (uploads s ++ [x]) s).
Hypothesis R_Send : allowed KReport = true ->
  forall s m, R s (set_Send (Send s ++ [m]) s).
Hypothesis R_envs : allowed KExport = true ->
  forall s m m', envs s = Some m -> R s (set_envs (Some m') s).
Hypothesis R_start : allowed KStart = true ->
  forall cmd s e s', processStart W cmd s = Ok (e, s') -> R s s'.
Hypothesis R_failed : allowed KCompose = true ->
  forall s, R s (assignBuildStatus "failed" s).

Lemma WriteLn_frame format operands s s' :
  WriteLn format operands s = Ok s' -> R s s'.
Proof.
  unfold WriteLn. destruct (console s) eqn:Hc; [|discriminate].
  intros [= <-]. apply R_console. exact Hc.
Qed.

Lemma Write_frame data s s' : Write data s = Ok s' -> R s s'.
Proof.
  unfold Write. destruct (decide (data = "")); [intros [= <-]; apply R_refl|].
  destruct (console s) eqn:Hc; [|discriminate].
  intros [= <-]. apply R_console. exact Hc.
Qed.

Lemma writeLines_frame lines : forall s s', writeLines lines s = Ok s' -> R s s'.
Proof.
  induction lines as [|l lines IH]; intros s s'; simpl.
  - intros [= <-]. apply R_refl.
  - destruct (WriteLn l [] s) as [s1| |] eqn:Hw; simpl; try discriminate.
    intros H. eapply R_trans; [eapply WriteLn_frame; eassumption|eauto].
Qed.

Lemma fail_frame err s s' :
  allowed KCompose = true -> fail err s = Ok s' -> R s s'.
Proof.
  intros Hk. unfold fail. destruct (decide _); [|intros [= <-]; apply R_refl].
  destruct (WriteLn err [] s) as [s1| |] eqn:Hw; simpl; try discriminate.
  intros [= <-]. eapply R_trans; [eapply WriteLn_frame; eassumption|].
  apply R_failed. exact Hk.
Qed.

Lemma processExport_frame cmd s e s' :
  allowed KExport = true -> processExport cmd s = Ok (e, s') -> R s s'.
Proof.
  intros Hk. unfold processExport. destruct (decide _).
  - destruct (envs s) eqn:He; [|discriminate]. intros [= <- <-].
    eapply R_envs; eassumption.
  - destruct (writeLines _ s) as [s1| |] eqn:Hw; simpl; try discriminate.
    intros [= <- <-]. eapply writeLines_frame; eassumption.
Qed.

Lemma processEcho_frame cmd s e s' : processEcho cmd s = Ok (e, s') -> R s s'.
Proof.
  unfold processEcho.
  destruct (writeLines _ s) as [s1| |] eqn:Hw; simpl; try discriminate.
  intros [= <- <-]. eapply writeLines_frame; eassumption.
Qed.

Lemma processTest_frame cmd s e s' : processTest W cmd s = Ok (e, s') -> R s s'.
Proof.
  unfold processTest. destruct (decide _); intros [= <- <-];
    [apply R_tick|apply R_refl].
Qed.

Lemma processExec_frame cmd s e s' :
  allowed KExec = true -> processExec W cmd s = Ok (e, s') -> R s s'.
Proof.
  intros Hk. unfold processExec.
  destruct (execRun _ _ _ _ _) as [output err|output killErr].
  - destruct (Write output (tick s)) as [s1| |] eqn:Hw; simpl; try discriminate.
    intros [= <- <-]. apply Write_frame in Hw. eauto.
  - destruct (Write output (set_cancel true (tick s))) as [s1| |] eqn:Hw; simpl;
      try discriminate.
    apply Write_frame in Hw.
    assert (H1 : R s s1).
    { eapply R_trans; [apply R_tick|]. eapply R_trans; [apply (R_cancel Hk)|exact Hw]. }
    destruct killErr as [k|]; simpl.
    + destruct (WriteLn _ _ s1) as [s2| |] eqn:Hw2; simpl; try discriminate.
      intros [= <- <-]. apply WriteLn_frame in Hw2. eauto.
    + intros [= <- <-]. exact H1.
Qed.

Lemma uploadPath_frame source destDir s e s' :
  allowed KUploadArtifact = true ->
  uploadPath W source destDir s = Ok (e, s') -> R s s'.
Proof.
  intros Hk. unfold uploadPath. destruct (osStat W (ticks s) source).
  - intros [= <- <-]. apply R_tick.
  - destruct (WriteLn _ _ (tick s)) as [s1| |] eqn:Hw; simpl; try discriminate.
    apply WriteLn_frame in Hw.
    assert (H1 : R s s1) by (eapply R_trans; [apply R_tick|exact Hw]).
    destruct (artifacts s1); [|discriminate].
    destruct (BuildDestURL _ _ _ _); intros [= <- <-]; [exact H1|].
    eapply R_trans; [exact H1|]. eapply R_trans; [apply (R_uploads Hk)|apply R_tick].
Qed.

Lemma uploadArtifacts_frame fuel0 : forall source destDir s e s',
  allowed KUploadArtifact = true ->
  uploadArtifacts W fuel0 source destDir s = Ok (e, s') -> R s s'.
Proof.
  induction fuel0 as [|fuel0 IH]; intros source destDir s e s' Hk; simpl;
    destruct (GoString.Contains source "*"); try discriminate;
    try (apply uploadPath_frame; exact Hk).
  destruct (filepathGlob W (ticks s) source) as [err|matches].
  - intros [= <- <-]. apply R_tick.
  - pose proof (R_tick s) as Htick.
    revert Htick. generalize (tick s) as s0.
    induction matches as [|file matches IHm]; intros s0 Hs0.
    + intros [= <- <-]. exact Hs0.
    + destruct (decide _); [|discriminate].
      destruct (uploadArtifacts W fuel0 file _ s0) as [[[e1|] s1]| |] eqn:Hu; simpl;
        try discriminate; apply (IH _ _ _ _ _ Hk) in Hu.
      * intros [= <- <-]. eauto.
      * apply IHm. eauto.
Qed.

Lemma dispatchWith_frame compose cmd s e s' :
  allowed (kindOf (Name cmd)) = true ->
  kindOf (Name cmd) ≠ KCompose ->
  dispatchWith W fuel compose cmd s = Ok (e, s') -> R s s'.
Proof.
  intros Hk Hc. unfold dispatchWith.
  destruct (kindOf (Name cmd)); try contradiction.
  - apply (R_start Hk).
  - apply processExport_frame. exact Hk.
  - apply processTest_frame.
  - apply processExec_frame. exact Hk.
  - apply processEcho_frame.
  - unfold processUploadArtifact. destruct (filepathAbs W _).
    + intros [= <- <-]. apply R_refl.
    + apply uploadArtifacts_frame. exact Hk.
  - destruct (statusReport W _ s); simpl; try discriminate.
    intros [= <- <-]. apply (R_Send Hk).
  - intros [= <- <-]. apply R_refl.
  - destruct (WriteLn _ _ s) as [s1| |] eqn:Hw; simpl; try discriminate.
    intros [= <- <-]. eapply WriteLn_frame; eassumption.
Qed.

Lemma composeWith_frame proc subs :
  allowed KCompose = true ->
  Forall (fun sub => forall s e s', proc sub s = Ok (e, s') -> R s s') subs ->
  forall err0 s e s', composeWith proc subs err0 s = Ok (e, s') -> R s s'.
Proof.
  intros Hk. induction 1 as [|sub subs Hsub _ IH]; intros err0 s e s'; simpl.
  - intros [= <- <-]. apply R_refl.
  - destruct (proc sub s) as [[e1 s1]| |] eqn:Hp; simpl; try discriminate.
    apply Hsub in Hp.
    destruct e1 as [e1|]; simpl.
    + destruct (fail e1 s1) as [s2| |] eqn:Hf; simpl; try discriminate.
      apply (fail_frame _ _ _ Hk) in Hf. intros H. apply IH in H. eauto.
    + intros H. apply IH in H. eauto.
Qed.

Lemma process_frame cmd :
  allKinds allowed cmd = true ->
  forall s e s', process W fuel cmd s = Ok (e, s') -> R s s'.
Proof.
  induction cmd as [name args wd rif test subs IHtest IHsubs]
    using BuildCommand_tree_ind.
  intros Hall s e s'. simpl in Hall.
  apply andb_true_iff in Hall as [Hall Hsubs].
  apply andb_true_iff in Hall as [Hkind Htest].
  assert (Hdispatch : forall s0 e0 s0',
             dispatch W fuel (MkBuildCommand name args wd rif test subs) s0
             = Ok (e0, s0') -> R s0 s0').
  { intros s0 e0 s0'. unfold dispatch.
    assert (Hcases : kindOf name = KCompose \/ kindOf name ≠ KCompose)
      by (destruct (kindOf name); auto; right; discriminate).
    destruct Hcases as [Hc|Hc].
    - unfold dispatchWith, processCompose. simpl. rewrite Hc.
      apply composeWith_frame; [rewrite <- Hc; exact Hkind|].
      rewrite forallb_forall in Hsubs. rewrite Forall_forall in IHsubs.
      apply Forall_forall. intros sub Hin. apply (IHsubs sub Hin).
      apply Hsubs. apply list_elem_of_In. exact Hin.
    - apply dispatchWith_frame; assumption. }
  rewrite process_unfold.
  destruct (isCanceled s); [intros [= <- <-]; apply R_refl|].
  destruct (skipped _ s); [intros [= <- <-]; apply R_refl|].
  simpl Test. destruct test as [[c ex]|]; [|apply Hdispatch].
  simpl. destruct (process W fuel c s) as [[err s1]| |] eqn:Hp; simpl;
    try discriminate.
  apply (IHtest Htest) in Hp.
  destruct (decide _).
  - intros [= <- <-]. exact Hp.
  - intros H. apply Hdispatch in H. eauto.
Qed.

End Frame.

Lemma allKinds_anyKind cmd : allKinds anyKind cmd = true.
Proof.
  induction cmd as [name args wd rif test subs IHtest IHsubs]
    using BuildCommand_tree_ind.
  simpl. destruct test as [[c ex]|]; simpl; [rewrite IHtest|];
    apply forallb_forall; rewrite Forall_forall in IHsubs;
    intros sub Hin; apply IHsubs; apply list_elem_of_In; exact Hin.
Qed.

Lemma journalsGrow_refl s : journalsGrow s s.
Proof. repeat split; auto. Qed.

Lemma journalsGrow_trans s1 s2 s3 :
  journalsGrow s1 s2 -> journalsGrow s2 s3 -> journalsGrow s1 s3.
Proof.
  intros (A1 & A2 & A3 & A4 & A5 & A6) (B1 & B2 & B3 & B4 & B5 & B6).
  repeat split; try (etrans; eassumption); try lia; try congruence; auto.
Qed.

(** X1. Whatever the command and the world, when [process] returns, the
    messages sent before are a prefix of the messages sent, the uploads made
    before a prefix of the uploads made, and the values assigned to the build
    status before a prefix of those assigned; [done] is untouched and a
    raised cancel signal is still raised. *)
Theorem process_journals_grow W fuel cmd s e s' :
  process W fuel cmd s = Ok (e, s') -> journalsGrow s s'.
Proof.
  apply (process_frame W fuel journalsGrow anyKind).
  - apply journalsGrow_refl.
  - apply journalsGrow_trans.
  - intros s0 c entries Hc. repeat split; simpl; auto.
  - intros s0. repeat split; simpl; auto.
  - intros _ s0. repeat split; simpl; auto.
  - intros _ s0 x. repeat split; simpl; auto. apply prefix_app_r. reflexivity.
  - intros _ s0 m. repeat split; simpl; auto. apply prefix_app_r. reflexivity.
  - intros _ s0 m m' Hm. repeat split; simpl; auto.
  - intros _ cmd0 s0 e0 s0'. unfold processStart. destruct (urlParse W _);
      intros [= <- <-]; repeat split; simpl; auto. apply prefix_app_r. reflexivity.
  - intros _ s0. repeat split; simpl; auto. apply prefix_app_r. reflexivity.
  - apply allKinds_anyKind.
Qed.

Lemma process_journals_grow_witness :
  exists s',
    process Demo.world 0
      (Demo.compose [Demo.testFlag "-x" "/wd"; Demo.reportCompleted "any"])
      Demo.started = Ok (None, s')
    /\ journalsGrow Demo.started s'.
Proof.
  eexists. split; [vm_compute; reflexivity|].
  eapply (process_journals_grow Demo.world 0
            (Demo.compose [Demo.testFlag "-x" "/wd"; Demo.reportCompleted "any"])
            Demo.started None).
  vm_compute. reflexivity.
Defined.

Lemma consoleGrows_refl s : consoleGrows s s.
Proof.
  unfold consoleGrows. destruct (console s) as [c|]; [|reflexivity].
  exists []. rewrite logged_nil. reflexivity.
Qed.

Lemma consoleGrows_same s s' : console s' = console s -> consoleGrows s s'.
Proof.
  intros H. unfold consoleGrows. rewrite H. destruct (console s) as [c|]; [|reflexivity].
  exists []. rewrite logged_nil. reflexivity.
Qed.

Lemma consoleGrows_trans s1 s2 s3 :
  consoleGrows s1 s2 -> consoleGrows s2 s3 -> consoleGrows s1 s3.
Proof.
  unfold consoleGrows. destruct (console s1) as [c1|].
  - intros [l1 H1]. rewrite H1. intros [l2 H2]. exists (l1 ++ l2)%list.
    rewrite H2, logged_logged. reflexivity.
  - intros H1. rewrite H1. auto.
Qed.

Lemma sameBindings_trans s1 s2 s3 :
  sameBindings s1 s2 -> sameBindings s2 s3 -> sameBindings s1 s3.
Proof.
  intros (A1 & A2 & A3 & A4 & A5) (B1 & B2 & B3 & B4 & B5).
  repeat split; try congruence. eapply consoleGrows_trans; eassumption.
Qed.

(** Closes the side conditions of [process_frame] for a relation that only
    compares fields. *)
Ltac frame_step :=
  first
    [ intros H; discriminate H
    | intros; simpl; repeat split; simpl; congruence
    | intros; repeat split; simpl; auto; fail ].

(** X2. A command tree without [start] leaves the build id, the uploaders
    and the process-wide state as they were, and keeps the console: if the
    console is bound it is the same console and no call made on it is lost,
    and if it is not bound it stays unbound. *)
Theorem only_start_rebinds W fuel cmd s e s' :
  allKinds (except [KStart]) cmd = true ->
  process W fuel cmd s = Ok (e, s') ->
  sameBindings s s'.
Proof.
  intros Hall. revert Hall s e s'.
  apply (process_frame W fuel sameBindings (except [KStart]));
    try (intros H; discriminate H);
    try (intros; repeat split; simpl; try reflexivity;
         apply consoleGrows_same; reflexivity).
  - apply sameBindings_trans.
  - intros s c entries Hc. repeat split. unfold consoleGrows. rewrite Hc.
    exists entries. reflexivity.
Qed.

Lemma only_start_rebinds_witness :
  exists s',
    process Demo.world 0
      (Demo.compose [Demo.echo "hello" "passed"; Demo.export [("CI", "true")];
                     Demo.reportCompleted "any"])
      Demo.started = Ok (None, s')
    /\ sameBindings Demo.started s'.
Proof.
  eexists. split; [vm_compute; reflexivity|].
  eapply (only_start_rebinds Demo.world 0
            (Demo.compose [Demo.echo "hello" "passed"; Demo.export [("CI", "true")];
                           Demo.reportCompleted "any"])
            Demo.started None).
  - reflexivity.
  - vm_compute. reflexivity.
Defined.

(** X3. Effects are confined to the commands that make them. When [process]
    returns on a tree, then: without report commands in the tree no message
    was sent; without [uploadArtifact] commands nothing was uploaded; without
    [start] and [export] commands [envs] is unchanged; and without [exec]
    commands the cancel signal is as it was. *)
Theorem effects_are_confined W fuel cmd s e s' :
  process W fuel cmd s = Ok (e, s') ->
  (allKinds (except [KReport]) cmd = true -> Send s' = Send s)
  /\ (allKinds (except [KUploadArtifact]) cmd = true -> uploads s' = uploads s)
  /\ (allKinds (except [KStart; KExport]) cmd = true -> envs s' = envs s)
  /\ (allKinds (except [KExec]) cmd = true -> cancel s' = cancel s).
Proof.
  intros Hp. repeat split; intros Hall; revert Hall s e s' Hp.
  - apply (process_frame W fuel (fun s s' => Send s' = Send s) (except [KReport]));
      try frame_step.
    intros _ cmd0 s e s'. unfold processStart.
    destruct (urlParse W _); intros [= <- <-]; reflexivity.
  - apply (process_frame W fuel (fun s s' => uploads s' = uploads s)
             (except [KUploadArtifact])); try frame_step.
    intros _ cmd0 s e s'. unfold processStart.
    destruct (urlParse W _); intros [= <- <-]; reflexivity.
  - apply (process_frame W fuel (fun s s' => envs s' = envs s)
             (except [KStart; KExport])); try frame_step.
  - apply (process_frame W fuel (fun s s' => cancel s' = cancel s)
             (except [KExec])); try frame_step.
    intros _ cmd0 s e s'. unfold processStart.
    destruct (urlParse W _); intros [= <- <-]; reflexivity.
Qed.

Lemma effects_are_confined_witness :
  let s' := assignBuildStatus "failed"
              (set_console
                 (Some (Demo.consoleOf [WriteLnCall "hello" [];
                                        WriteLnCall "unknown test flag" []]))
                 Demo.started) in
  Send s' = Send Demo.started
  /\ uploads s' = uploads Demo.started
  /\ envs s' = envs Demo.started
  /\ cancel s' = cancel Demo.started.
Proof.
  intros s'.
  destruct (effects_are_confined Demo.world 0
              (Demo.compose [Demo.echo "hello" "passed"; Demo.testFlag "-x" "/wd"])
              Demo.started (Some "unknown test flag") s')
    as (H1 & H2 & H3 & H4).
  - vm_compute. reflexivity.
  - split; [apply H1; reflexivity|]. split; [apply H2; reflexivity|].
    split; [apply H3; reflexivity|apply H4; reflexivity].
Defined.

(** X4. Commands do not fail the session on their own: on a tree without
    [start] and without [compose], [process] never assigns the build status,
    also when it returns an error. (The error becomes a failure only when a
    [compose] or [Process] hands it to [fail].) *)
Theorem errors_fail_only_through_compose W fuel cmd s e s' :
  allKinds (except [KStart; KCompose]) cmd = true ->
  process W fuel cmd s = Ok (e, s') ->
  buildStatus s' = buildStatus s /\ statusLog s' = statusLog s.
Proof.
  intros Hall. revert Hall s e s'.
  apply (process_frame W fuel sameStatus (except [KStart; KCompose]));
    try (intros H; discriminate H);
    try (intros; split; reflexivity).
  apply sameStatus_trans.
Qed.

Lemma errors_fail_only_through_compose_witness :
  process Demo.world 0
    (Demo.guarded (Demo.testFlag "-x" "/wd") false (Demo.testFlag "-d" "/missing"))
    Demo.started
  = Ok (Some (Demo.noSuchFile "/missing"), tick Demo.started)
  /\ buildStatus (tick Demo.started) = buildStatus Demo.started
  /\ statusLog (tick Demo.started) = statusLog Demo.started.
Proof.
  split; [vm_compute; reflexivity|].
  apply (errors_fail_only_through_compose Demo.world 0
           (Demo.guarded (Demo.testFlag "-x" "/wd") false
              (Demo.testFlag "-d" "/missing"))
           Demo.started (Some (Demo.noSuchFile "/missing"))).
  - reflexivity.
  - vm_compute. reflexivity.
Defined.

(** ** The life of a session: [Process] and [Close] *)

Lemma process_journals_grow_done W fuel cmd s e s' :
  process W fuel cmd s = Ok (e, s') -> done s' = done s.
Proof.
  apply (process_frame W fuel (fun s s' => done s' = done s) anyKind);
    try (intros; simpl; congruence).
  - intros _ cmd0 s0 e0 s0'. unfold processStart.
    destruct (urlParse W _); intros [= <- <-]; reflexivity.
  - apply allKinds_anyKind.
Qed.

Lemma fail_sent err s s' :
  fail err s = Ok s' ->
  Send s' = Send s /\ uploads s' = uploads s /\ buildStatus s' = "failed".
Proof.
  unfold fail, WriteLn. destruct (decide (buildStatus s ≠ "failed")) as [Hs|Hs].
  - destruct (console s); simpl; [|discriminate]. intros [= <-]. repeat split.
  - intros [= <-]. repeat split.
    destruct (decide (buildStatus s = "failed")); [assumption|contradiction].
Qed.

Lemma fail_done err s s' : fail err s = Ok s' -> done s' = done s.
Proof.
  unfold fail, WriteLn. destruct (decide _); [|intros [= <-]; reflexivity].
  destruct (console s); simpl; [|discriminate]. intros [= <-]. reflexivity.
Qed.

(** X5. When [Process] returns, it returns the error of [process]; the
    [done] channel, open before, is closed (so a second [Process] on the
    same session cannot return: it panics on closing [done] again); the
    console is closed; a non-nil error has been handed to [fail], so that
    the session is failed; and nothing was sent or uploaded after [process]
    returned. *)
Theorem Process_closes_the_session W fuel cmd s e s' :
  Process W fuel cmd s = Ok (e, s') ->
  done s = false
  /\ done s' = true
  /\ (exists c, console s' = Some c /\ closed c = true)
  /\ (e <> None -> buildStatus s' = "failed")
  /\ exists s1,
       process W fuel cmd s = Ok (e, s1)
       /\ Send s' = Send s1 /\ uploads s' = uploads s1.
Proof.
  unfold Process.
  destruct (process W fuel cmd s) as [[e1 s1]| |] eqn:Hp; simpl; try discriminate.
  pose proof (process_journals_grow_done W fuel cmd s e1 s1 Hp) as Hdone.
  destruct e1 as [err|]; simpl.
  - destruct (fail err s1) as [s2| |] eqn:Hf; simpl; try discriminate.
    destruct (console s2) as [c|] eqn:Hc; [|discriminate].
    destruct (done s2) eqn:Hd; [discriminate|].
    intros [= <- <-].
    pose proof (fail_done _ _ _ Hf) as Hfd.
    destruct (fail_sent err s1 s2 Hf) as (Hsend & Hup & Hst).
    split; [congruence|]. split; [reflexivity|].
    split; [eexists; split; reflexivity|]. split; [intros _; exact Hst|].
    exists s1. repeat split; simpl; congruence.
  - destruct (console s1) as [c|] eqn:Hc; [|discriminate].
    destruct (done s1) eqn:Hd; [discriminate|].
    intros [= <- <-].
    split; [congruence|]. split; [reflexivity|].
    split; [eexists; split; reflexivity|]. split; [intros H; contradiction|].
    exists s1. repeat split.
Qed.

Lemma Process_closes_the_session_witness :
  exists s',
    Process Demo.world 0
      (Demo.compose [Demo.testFlag "-x" "/wd"; Demo.reportCompleted "any"])
      Demo.started = Ok (None, s')
    /\ done Demo.started = false
    /\ done s' = true
    /\ (exists c, console s' = Some c /\ closed c = true)
    /\ ((None : option error) <> None -> buildStatus s' = "failed")
    /\ exists s1,
         process Demo.world 0
           (Demo.compose [Demo.testFlag "-x" "/wd"; Demo.reportCompleted "any"])
           Demo.started = Ok (None, s1)
         /\ Send s' = Send s1 /\ uploads s' = uploads s1.
Proof.
  eexists. split; [vm_compute; reflexivity|].
  apply (Process_closes_the_session Demo.world 0
           (Demo.compose [Demo.testFlag "-x" "/wd"; Demo.reportCompleted "any"])
           Demo.started None).
  vm_compute. reflexivity.
Defined.



(** ** Status reports *)

(** X7. A report command that is dispatched in a session whose status is
    "passed" or "failed" sends exactly one message and changes nothing else:
    the message is named after the command and carries the build id, the
    [jobState] argument (empty when the command has none) and the result
    "Passed" or "Failed". *)
Theorem report_sends_one_message W fuel cmd s :
  kindOf (Name cmd) = KReport ->
  isCanceled s = false ->
  Test cmd = None ->
  RunIfConfig cmd = "any" \/ RunIfConfig cmd = buildStatus s ->
  buildStatus s = "passed" \/ buildStatus s = "failed" ->
  process W fuel cmd s
  = Ok (None,
        set_Send
          (Send s ++ [reportOf W cmd s
                        (if decide (buildStatus s = "passed") then "Passed"
                         else "Failed")]) s).
Proof.
  intros Hk Hc Ht Hrun Hs. rewrite process_unfold, Hc, Ht.
  assert (Hskip : skipped cmd s = false).
  { unfold skipped. apply bool_decide_eq_false. intros (_ & H1 & H2).
    destruct Hrun; contradiction. }
  rewrite Hskip. unfold dispatch, dispatchWith. rewrite Hk.
  unfold statusReport, reportOf.
  destruct Hs as [Hs|Hs]; rewrite Hs; reflexivity.
Qed.

Lemma report_sends_one_message_witness :
  process Demo.world 0 (Demo.reportCompleted "any") Demo.failed
  = Ok (None,
        set_Send
          [MkMessage "reportCompleted" (MkReport ∅ "1" "Completed" "Failed")]
          Demo.failed).
Proof.
  apply (report_sends_one_message Demo.world 0 (Demo.reportCompleted "any")
           Demo.failed); try reflexivity.
  - left. reflexivity.
  - right. reflexivity.
Defined.

(** ** [capitalize] on ASCII *)

Lemma byteOf_range c : (0 <= Utf8.byteOf c < 256)%Z.
Proof.
  unfold Utf8.byteOf. pose proof (N_ascii_bounded c). lia.
Qed.

Lemma ofByte_byteOf c : Utf8.ofByte (Utf8.byteOf c) = c.
Proof.
  unfold Utf8.ofByte, Utf8.byteOf. rewrite N2Z.id. apply ascii_N_embedding.
Qed.

Lemma byteOf_ofByte b : (0 <= b < 256)%Z -> Utf8.byteOf (Utf8.ofByte b) = b.
Proof.
  intros Hb. unfold Utf8.ofByte, Utf8.byteOf.
  rewrite N_ascii_embedding by lia. lia.
Qed.

Lemma stringOfBytes_bytesOf str : Utf8.stringOfBytes (bytesOf str) = str.
Proof.
  induction str as [|c rest IH]; simpl; [reflexivity|].
  unfold Utf8.stringOfBytes in *. simpl. rewrite IH, ofByte_byteOf. reflexivity.
Qed.

Lemma encodeRune_ascii r : (0 <= r < 0x80)%Z -> Utf8.encodeRune r = [r].
Proof.
  intros Hr. unfold Utf8.encodeRune, Utf8.between.
  destruct (0 <=? r)%Z eqn:H0; [|lia].
  destruct (r <=? 127)%Z eqn:H1; [reflexivity|lia].
Qed.

Lemma runesFrom_ascii str :
  isASCII str = true -> Utf8.runesFrom 0 str = bytesOf str.
Proof.
  unfold isASCII. induction str as [|c rest IH]; simpl; [reflexivity|].
  intros H. apply andb_true_iff in H as [Hc Hrest].
  unfold Utf8.DecodeRuneInString. rewrite Hc. simpl. rewrite IH by exact Hrest.
  reflexivity.
Qed.

Lemma encode_ascii str :
  isASCII str = true -> concat (map Utf8.encodeRune (bytesOf str)) = bytesOf str.
Proof.
  unfold isASCII. induction str as [|c rest IH]; simpl; [reflexivity|].
  intros H. apply andb_true_iff in H as [Hc Hrest].
  rewrite encodeRune_ascii by (pose proof (byteOf_range c); lia).
  simpl. rewrite IH by exact Hrest. reflexivity.
Qed.

Lemma ToUpper_ascii tbl c :
  (Utf8.byteOf c <? 0x80)%Z = true ->
  Utf8.ToUpper tbl (Utf8.byteOf c) = Utf8.byteOf (upperASCII c)
  /\ (0 <= Utf8.byteOf (upperASCII c) < 0x80)%Z.
Proof.
  intros Hc. pose proof (byteOf_range c) as Hr.
  unfold Utf8.ToUpper, Utf8.MaxASCII, upperASCII.
  destruct (Utf8.byteOf c <=? 127)%Z eqn:H1; [|lia].
  destruct ((97 <=? Utf8.byteOf c) && (Utf8.byteOf c <=? 122))%Z eqn:H2.
  - apply andb_true_iff in H2 as [Ha Hz].
    rewrite byteOf_ofByte by lia. lia.
  - lia.
Qed.

(** X8. On a string of the ASCII range, [capitalize] touches the first byte
    only: a lower-case letter there becomes the upper-case one, the rest of
    the string is returned byte for byte, whatever the case tables; and
    capitalizing the result again changes nothing. *)
Theorem capitalize_ascii W c rest :
  isASCII (String c rest) = true ->
  capitalize W (String c rest) = Ok (String (upperASCII c) rest)
  /\ capitalize W (String (upperASCII c) rest) = Ok (String (upperASCII c) rest).
Proof.
  assert (Hone : forall c0, isASCII (String c0 rest) = true ->
            capitalize W (String c0 rest) = Ok (String (upperASCII c0) rest)).
  { intros c0 H. unfold capitalize, Utf8.runes. rewrite runesFrom_ascii by exact H.
    simpl. unfold isASCII in H. simpl in H. apply andb_true_iff in H as [Hc Hrest].
    destruct (ToUpper_ascii (caseTable W) c0 Hc) as [-> Hup].
    unfold Utf8.stringOfRunes. simpl.
    rewrite encodeRune_ascii by exact Hup.
    rewrite (encode_ascii rest) by exact Hrest.
    simpl. unfold Utf8.stringOfBytes. simpl.
    rewrite ofByte_byteOf. f_equal. f_equal. apply stringOfBytes_bytesOf. }
  intros H. split; [apply Hone; exact H|].
  assert (Hup : isASCII (String (upperASCII c) rest) = true).
  { unfold isASCII in *. simpl in *. apply andb_true_iff in H as [Hc Hrest].
    apply andb_true_iff. split; [|exact Hrest].
    destruct (ToUpper_ascii (fun r => r) c Hc) as [_ Hr]. apply Z.ltb_lt. lia. }
  rewrite (Hone _ Hup). f_equal. f_equal.
  unfold isASCII in H. simpl in H. apply andb_true_iff in H as [Hc _].
  pose proof (byteOf_range c) as Hr.
  unfold upperASCII at 1.
  destruct ((97 <=? Utf8.byteOf (upperASCII c)) && (Utf8.byteOf (upperASCII c) <=? 122))%Z
    eqn:H2; [|reflexivity].
  exfalso. apply andb_true_iff in H2 as [Ha Hz]. unfold upperASCII in Ha, Hz.
  destruct ((97 <=? Utf8.byteOf c) && (Utf8.byteOf c <=? 122))%Z eqn:H3.
  - apply andb_true_iff in H3 as [H4 H5].
    rewrite byteOf_ofByte in Ha by lia. lia.
  - rewrite andb_false_iff in H3. lia.
Qed.

Lemma capitalize_ascii_witness :
  capitalize Demo.world "failed" = Ok "Failed"
  /\ capitalize Demo.world "Failed" = Ok "Failed".
Proof.
  apply (capitalize_ascii Demo.world "f" "ailed"). reflexivity.
Defined.

(** ** Export, then list *)

(** X9. What [export] sets is what a later listing shows. After an [export]
    with arguments in a started session, the same [export] again changes
    nothing, and an [export] without arguments makes one [WriteLn] call per
    binding of the overlaid environment: among the lines there is
    "export KEY=VALUE" for every argument, and for every earlier binding
    whose key is not an argument. *)
Theorem export_then_list cmd listing s m c :
  0 < size (Args cmd) ->
  size (Args listing) = 0 ->
  envs s = Some m ->
  console s = Some c ->
  let s1 := set_envs (Some (Args cmd ∪ m)) s in
  let lines :=
    GoString.sortStrings (map exportLine (map_to_list (Args cmd ∪ m))) in
  processExport cmd s = Ok (None, s1)
  /\ processExport cmd s1 = Ok (None, s1)
  /\ processExport listing s1
     = Ok (None,
           set_console (Some (logged c (map (fun l => WriteLnCall l []) lines))) s1)
  /\ length lines = size (Args cmd ∪ m)
  /\ (forall key value,
         Args cmd !! key = Some value -> exportLine (key, value) ∈ lines)
  /\ (forall key value,
         Args cmd !! key = None -> m !! key = Some value ->
         exportLine (key, value) ∈ lines).
Proof.
  intros Hargs Hlist Hm Hc s1 lines.
  assert (Hin : forall key value,
             (Args cmd ∪ m) !! key = Some value -> exportLine (key, value) ∈ lines).
  { intros key value Hl. unfold lines, GoString.sortStrings.
    rewrite merge_sort_Permutation. apply list_elem_of_fmap_2'
      with (x := (key, value)); [|reflexivity].
    apply elem_of_map_to_list. exact Hl. }
  split; [|split; [|split; [|split; [|split]]]].
  - unfold processExport. destruct (decide _); [|contradiction].
    rewrite Hm. reflexivity.
  - unfold processExport. destruct (decide _); [|contradiction].
    unfold s1. simpl. rewrite (assoc_L (∪)), (idemp_L (∪)). reflexivity.
  - unfold processExport.
    destruct (decide (0 < size (Args listing))) as [H|_]; [rewrite Hlist in H; lia|].
    change (default ∅ (envs s1)) with (Args cmd ∪ m). fold lines.
    rewrite (writeLines_bound lines s1 c) by exact Hc. reflexivity.
  - unfold lines, GoString.sortStrings.
    rewrite merge_sort_Permutation, length_map, length_map_to_list. reflexivity.
  - intros key value Hk. apply Hin. apply lookup_union_Some_l. exact Hk.
  - intros key value Hk Hv. apply Hin. rewrite lookup_union_r by exact Hk. exact Hv.
Qed.

Lemma export_then_list_witness :
  let s := set_envs (Some {["PATH" := "/bin"]}) Demo.started in
  let s1 := set_envs (Some (Args (Demo.export [("GO_PIPELINE", "up42")])
                            ∪ {["PATH" := "/bin"]})) s in
  processExport (Demo.export []) s1
  = Ok (None,
        set_console
          (Some (Demo.consoleOf [WriteLnCall "export GO_PIPELINE=up42" [];
                                 WriteLnCall "export PATH=/bin" []])) s1).
Proof.
  intros s s1.
  assert (Hargs : 0 < size (Args (Demo.export [("GO_PIPELINE", "up42")])))
    by (vm_compute; lia).
  destruct (export_then_list (Demo.export [("GO_PIPELINE", "up42")]) (Demo.export [])
              s {["PATH" := "/bin"]} (MakeBuildConsole "https://server:8154/go/console")
              Hargs eq_refl eq_refl eq_refl)
    as (_ & _ & Hlist & _).
  unfold s1. rewrite Hlist. vm_compute. reflexivity.
Defined.

(** ** After a failure *)

Lemma failed_status_skips W fuel rest err0 s :
  buildStatus s = "failed" ->
  Forall (fun sub => RunIfConfig sub ≠ "any" /\ RunIfConfig sub ≠ "failed") rest ->
  composeWith (process W fuel) rest err0 s
  = Ok (match rest with [] => err0 | _ => None end, s).
Proof.
  intros Hs Hrest. revert err0.
  induction Hrest as [|sub rest [Hany Hfailed] _ IH]; intros err0; simpl;
    [reflexivity|].
  rewrite process_skipped.
  - simpl. rewrite IH. destruct rest; reflexivity.
  - unfold skipped. apply bool_decide_eq_true. rewrite Hs.
    repeat split; [discriminate|exact Hany|exact Hfailed].
Qed.

(** X10. After the first failure nothing else of the default kind runs: in a
    failed session, children of a compose whose [runIfConfig] is neither
    "failed" nor "any" are skipped one after the other, whatever they are;
    the session is left as it is, and the compose returns nil if there is
    such a child (and what it had before if there is none). *)
Theorem failed_session_skips_the_rest W fuel rest err0 s :
  buildStatus s = "failed" ->
  Forall (fun sub => RunIfConfig sub ≠ "any" /\ RunIfConfig sub ≠ "failed") rest ->
  composeWith (process W fuel) rest err0 s
  = Ok (match rest with [] => err0 | _ => None end, s).
Proof. apply failed_status_skips. Qed.

Lemma failed_session_skips_the_rest_witness :
  processCompose Demo.world 0
    (Demo.compose [Demo.exec "make" "test"; Demo.echo "done" "passed"]) Demo.failed
  = Ok (None, Demo.failed).
Proof.
  apply (failed_session_skips_the_rest Demo.world 0
           [Demo.exec "make" "test"; Demo.echo "done" "passed"] None Demo.failed).
  - reflexivity.
  - repeat constructor; discriminate.
Defined.

(** ** Upload *)

Lemma uploadArtifacts_plain W fuel source destDir s :
  GoString.Contains source "*" = false ->
  uploadArtifacts W fuel source destDir s = uploadPath W source destDir s.
Proof. intros H. destruct fuel; simpl; rewrite H; reflexivity. Qed.

(** X11. A missing artifact fails the build. In a started session that has
    passed so far, let a compose run an [uploadArtifact] whose source has no
    wildcard and is not found by [os.Stat], and then a report command with
    [runIfConfig] "any". Then nothing is uploaded, the error of [os.Stat] is
    the one line written to the console, the build status becomes "failed",
    and the one report sent carries the result "Failed". *)
Theorem missing_artifact_fails_the_build W fuel cmd upload report s c wd err :
  SubCommands cmd = [upload; report] ->
  kindOf (Name upload) = KUploadArtifact ->
  Test upload = None ->
  RunIfConfig upload = "passed" ->
  kindOf (Name report) = KReport ->
  Test report = None ->
  RunIfConfig report = "any" ->
  buildStatus s = "passed" ->
  isCanceled s = false ->
  console s = Some c ->
  filepathAbs W (WorkingDirectory upload) = inr wd ->
  GoString.Contains (filepathJoin W wd (index (Args upload) "src")) "*" = false ->
  osStat W (ticks s) (filepathJoin W wd (index (Args upload) "src")) = Some err ->
  let failed :=
    assignBuildStatus "failed"
      (set_console (Some (logged c [WriteLnCall err []])) (tick s)) in
  processCompose W fuel cmd s
  = Ok (None, set_Send (Send s ++ [reportOf W report failed "Failed"]) failed)
  /\ uploads failed = uploads s.
Proof.
  intros Hsubs Hku Htu Hru Hkr Htr Hrr Hs Hc Hcon Habs Hplain Hstat failed.
  split; [|reflexivity].
  unfold processCompose. rewrite Hsubs. simpl.
  rewrite (process_unfold W fuel upload), Hc, Htu.
  assert (Hskip : skipped upload s = false).
  { unfold skipped. apply bool_decide_eq_false. intros (_ & _ & H).
    apply H. congruence. }
  rewrite Hskip. unfold dispatch, dispatchWith. rewrite Hku.
  unfold processUploadArtifact. rewrite Habs.
  rewrite uploadArtifacts_plain by exact Hplain.
  unfold uploadPath. rewrite Hstat. simpl.
  unfold fail. simpl. rewrite Hs.
  destruct (decide ("passed" ≠ "failed")) as [_|H]; [|exfalso; apply H; discriminate].
  unfold WriteLn. simpl. rewrite Hcon. simpl. fold failed.
  rewrite (process_unfold W fuel report).
  assert (Hc2 : isCanceled failed = false) by exact Hc.
  rewrite Hc2, Htr.
  assert (Hskip2 : skipped report failed = false).
  { unfold skipped. apply bool_decide_eq_false. intros (_ & H & _).
    apply H. exact Hrr. }
  rewrite Hskip2. unfold dispatch, dispatchWith. rewrite Hkr.
  unfold statusReport. reflexivity.
Qed.

Lemma missing_artifact_fails_the_build_witness :
  let upload := Demo.command "uploadArtifact" [("src", "nofile"); ("dest", "")]
                  "passed" [] in
  exists s',
    processCompose Demo.world 0
      (Demo.compose [upload; Demo.reportCompleted "any"]) Demo.started
    = Ok (None, s')
    /\ option_map calls (console s')
       = Some [WriteLnCall "stat /wd/nofile: no such file or directory" []]
    /\ Send s' = [MkMessage "reportCompleted" (MkReport ∅ "1" "Completed" "Failed")]
    /\ uploads s' = [].
Proof.
  intros upload.
  destruct (missing_artifact_fails_the_build Demo.world 0
              (Demo.compose [upload; Demo.reportCompleted "any"])
              upload (Demo.reportCompleted "any") Demo.started
              (MakeBuildConsole "https://server:8154/go/console") "/wd"
              "stat /wd/nofile: no such file or directory")
    as [Hrun _]; try reflexivity.
  eexists. split; [exact Hrun|]. repeat split.
Defined.

(** X12. The edges of the wildcard branch of [uploadArtifacts]. An error of
    [filepath.Glob] is returned as it is. A pattern that matches nothing is
    a success: nil is returned, nothing is written to the console and nothing
    is uploaded. And a first match whose directory is not longer than the
    base directory of the pattern makes the slice expression panic. *)
Theorem wildcard_edges W fuel source destDir s :
  GoString.Contains source "*" = true ->
  (forall err,
      filepathGlob W (ticks s) source = inl err ->
      uploadArtifacts W (S fuel) source destDir s = Ok (Some err, tick s))
  /\ (filepathGlob W (ticks s) source = inr [] ->
      uploadArtifacts W (S fuel) source destDir s = Ok (None, tick s))
  /\ (forall file rest,
         filepathGlob W (ticks s) source = inr (file :: rest) ->
         String.length (fst (GoString.Split file))
         <= String.length (BaseDirOfPathWithWildcard W source) ->
         uploadArtifacts W (S fuel) source destDir s
         = Panic "slice bounds out of range").
Proof.
  intros Hwild. repeat split.
  - intros err Hglob. simpl. rewrite Hwild, Hglob. reflexivity.
  - intros Hglob. simpl. rewrite Hwild, Hglob. reflexivity.
  - intros file rest Hglob Hlen. simpl. rewrite Hwild, Hglob.
    destruct (decide _) as [H|_]; [|reflexivity].
    exfalso. eapply Nat.lt_irrefl, Nat.lt_le_trans; [exact H|exact Hlen].
Qed.

Lemma wildcard_edges_witness :
  uploadArtifacts Demo.world 1 "/wd/target/*.jar" "dist" Demo.started
  = Ok (None, tick Demo.started).
Proof.
  apply (wildcard_edges Demo.world 0 "/wd/target/*.jar" "dist" Demo.started);
    reflexivity.
Defined.

(** X13. When no match of the pattern contains a wildcard itself, the
    wildcard branch needs one level of recursion only: with any fuel it
    uploads the matches in the order of [filepath.Glob], each as a plain
    source to the destination computed for it, and stops at the first
    error. *)
Theorem wildcard_uploads_each_match W fuel source destDir s matches :
  GoString.Contains source "*" = true ->
  filepathGlob W (ticks s) source = inr matches ->
  Forall (fun file =>
            GoString.Contains file "*" = false
            /\ String.length (BaseDirOfPathWithWildcard W source)
               < String.length (fst (GoString.Split file))) matches ->
  uploadArtifacts W (S fuel) source destDir s
  = uploadEach W (String.length (BaseDirOfPathWithWildcard W source)) destDir
      matches (tick s).
Proof.
  intros Hwild Hglob Hall. simpl. rewrite Hwild, Hglob. clear Hglob.
  generalize (tick s) as s0.
  induction Hall as [|file rest [Hplain Hlen] _ IH]; intros s0; simpl;
    [reflexivity|].
  destruct (decide _) as [_|H]; [|contradiction].
  rewrite uploadArtifacts_plain by exact Hplain.
  fold (matchDest (String.length (BaseDirOfPathWithWildcard W source)) destDir file).
  destruct (uploadPath W file _ s0) as [[[e|] s1]| |]; simpl; try reflexivity.
  apply IH.
Qed.

(** *** Paths *)

Lemma append_cons x (a b : string) : String x a ++ b = String x (a ++ b).
Proof. reflexivity. Qed.

Lemma append_nil (b : string) : "" ++ b = b.
Proof. reflexivity. Qed.

Lemma append_assoc (a b c : string) : (a ++ b) ++ c = a ++ (b ++ c).
Proof.
  induction a as [|x a IH]; [reflexivity|]. rewrite !append_cons, IH. reflexivity.
Qed.

Lemma length_append (a b : string) :
  String.length (a ++ b) = String.length a + String.length b.
Proof.
  induction a as [|x a IH]; [reflexivity|]. rewrite append_cons. simpl.
  rewrite IH. reflexivity.
Qed.

Lemma substring_all (a : string) : substring 0 (String.length a) a = a.
Proof. induction a as [|x a IH]; simpl; congruence. Qed.

Lemma substring_prefix (a b : string) : substring 0 (String.length a) (a ++ b) = a.
Proof.
  induction a as [|x a IH]; [rewrite append_nil; destruct b; reflexivity|].
  rewrite append_cons. simpl. rewrite IH. reflexivity.
Qed.

Lemma substring_skip (a b : string) n :
  substring (String.length a) n (a ++ b) = substring 0 n b.
Proof.
  induction a as [|x a IH]; [reflexivity|]. rewrite append_cons. simpl. exact IH.
Qed.

Lemma Contains_slash_cons c t :
  GoString.Contains (String c t) "/" = false ->
  Ascii.eqb c "/" = false /\ GoString.Contains t "/" = false.
Proof.
  change (GoString.Contains (String c t) "/")
    with (String.prefix "/" (String c t) || GoString.Contains t "/").
  change (String.prefix "/" (String c t))
    with (match ascii_dec "/" c with
          | left _ => String.prefix "" t
          | right _ => false
          end).
  destruct (ascii_dec "/" c) as [<-|Hne].
  - destruct t; discriminate.
  - intros H. split; [|exact H]. apply Ascii.eqb_neq. congruence.
Qed.

Lemma afterLastSlash_none name :
  GoString.Contains name "/" = false -> GoString.afterLastSlash name = 0.
Proof.
  induction name as [|c t IH]; [reflexivity|].
  intros H. apply Contains_slash_cons in H as [Hc Ht].
  simpl. rewrite (IH Ht), Hc. reflexivity.
Qed.

Lemma afterLastSlash_dir dir name :
  GoString.Contains name "/" = false ->
  GoString.afterLastSlash (dir ++ "/" ++ name) = S (String.length dir).
Proof.
  intros Hname. induction dir as [|c dir IH].
  - rewrite append_nil, append_cons, append_nil. simpl.
    rewrite (afterLastSlash_none name Hname). reflexivity.
  - rewrite append_cons. simpl. rewrite IH. reflexivity.
Qed.

(** [filepath.Split] splits after the last slash. *)
Lemma Split_dir_name dir name :
  GoString.Contains name "/" = false ->
  GoString.Split (dir ++ "/" ++ name) = (dir ++ "/", name).
Proof.
  intros Hname. unfold GoString.Split. rewrite (afterLastSlash_dir dir name Hname).
  assert (Hlen : S (String.length dir) = String.length (dir ++ "/"))
    by (rewrite length_append; simpl; lia).
  rewrite Hlen. rewrite <- (append_assoc dir "/" name).
  rewrite substring_prefix, substring_skip.
  rewrite length_append.
  replace (String.length (dir ++ "/") + String.length name - String.length (dir ++ "/"))
    with (String.length name) by lia.
  rewrite substring_all. reflexivity.
Qed.

Lemma dropTrailingSlashes_name a name :
  GoString.Contains name "/" = false -> name <> "" ->
  GoString.dropTrailingSlashes (a ++ name) = a ++ name.
Proof.
  intros Hname Hne.
  assert (Hn : GoString.dropTrailingSlashes name = name).
  { clear Hne. induction name as [|c t IH]; [reflexivity|].
    apply Contains_slash_cons in Hname as [Hc Ht]. simpl.
    rewrite (IH Ht), Hc. destruct t; reflexivity. }
  induction a as [|x a IH]; [exact Hn|].
  rewrite append_cons. simpl. rewrite IH. destruct (a ++ name) eqn:Ha; [|reflexivity].
  destruct a; destruct name; try discriminate. contradiction.
Qed.

Lemma basename_dir_name dir name :
  GoString.Contains name "/" = false -> name <> "" ->
  GoString.basename (dir ++ "/" ++ name) = name.
Proof.
  intros Hname Hne.
  assert (Hsplit : snd (GoString.Split (dir ++ "/" ++ name)) = name)
    by (rewrite (Split_dir_name dir name Hname); reflexivity).
  destruct (dir ++ "/" ++ name) as [|c rest] eqn:Hd.
  - destruct dir; discriminate.
  - unfold GoString.basename.
    assert (Hrest : exists a, rest = a ++ name).
    { destruct dir as [|d dir].
      - rewrite append_nil, append_cons, append_nil in Hd. injection Hd as _ <-.
        exists "". reflexivity.
      - rewrite append_cons in Hd. injection Hd as _ <-.
        exists (dir ++ "/"). rewrite append_assoc. reflexivity. }
    destruct Hrest as [a ->].
    rewrite (dropTrailingSlashes_name a name Hname Hne).
    destruct (a ++ name) eqn:Ha; [|exact Hsplit].
    destruct a; destruct name; try discriminate. contradiction.
Qed.

Lemma wildcard_uploads_each_match_witness :
  exists s',
    uploadArtifacts Project.world 1 "/wd/src/hello/*.txt" "dest" Demo.started
    = Ok (None, s')
    /\ uploads s'
       = [("/wd/src/hello/3.txt", "dest/hello/3.txt", "https://server:8154/go1/dest/hello");
          ("/wd/src/hello/4.txt", "dest/hello/4.txt", "https://server:8154/go1/dest/hello")].
Proof.
  eexists. split; [|shelve].
  rewrite (wildcard_uploads_each_match Project.world 0 "/wd/src/hello/*.txt" "dest"
             Demo.started Project.files).
  - vm_compute. reflexivity.
  - reflexivity.
  - reflexivity.
  - repeat constructor.
  Unshelve. reflexivity.
Defined.

(** X14. The destination of a match. Let a match be [pre ++ rel ++ "/" ++ name],
    where [pre] has the length of the base directory of the pattern and
    [name] is a file name. Its destination directory is [destDir/rel]: only
    the length of the base counts. In a started session where [os.Stat]
    finds the match, the console line names the match and [destDir/rel], and
    unless [BuildDestURL] fails the match is uploaded under the path
    [destDir/rel/name]. *)
Theorem match_destination W pre rel name destDir s c uploader :
  GoString.Contains name "/" = false ->
  name <> "" ->
  osStat W (ticks s) (pre ++ rel ++ "/" ++ name) = None ->
  console s = Some c ->
  artifacts s = Some uploader ->
  let file := pre ++ rel ++ "/" ++ name in
  let dest := destDir ++ "/" ++ rel in
  let destPath := dest ++ "/" ++ name in
  let s1 :=
    set_console
      (Some (logged c [WriteLnCall "Uploading artifacts from %v to %v" [file; dest]]))
      (tick s) in
  matchDest (String.length pre) destDir file = dest
  /\ uploadPath W file (matchDest (String.length pre) destDir file) s
     = match BuildDestURL W uploader dest (buildId s) with
       | inl err => Ok (Some err, s1)
       | inr destURL =>
           Ok (Upload W (S (ticks s)) uploader file destPath destURL,
               tick (set_uploads (uploads s ++ [(file, destPath, destURL)]) s1))
       end.
Proof.
  intros Hname Hne Hstat Hc Hu file dest destPath s1. subst file.
  assert (Hfile : pre ++ rel ++ "/" ++ name = (pre ++ rel) ++ "/" ++ name)
    by (rewrite append_assoc; reflexivity).
  assert (Hdest : matchDest (String.length pre) destDir (pre ++ rel ++ "/" ++ name)
                  = dest).
  { unfold matchDest. rewrite Hfile, (Split_dir_name _ _ Hname). simpl fst.
    rewrite (append_assoc pre rel "/"), substring_skip, !length_append. simpl.
    replace (String.length pre + (String.length rel + 1) - 1 - String.length pre)
      with (String.length rel) by lia.
    rewrite substring_prefix. reflexivity. }
  split; [exact Hdest|]. rewrite Hdest.
  unfold uploadPath. rewrite Hstat.
  unfold WriteLn. simpl. rewrite Hc. simpl. rewrite Hu.
  assert (Hbase : GoString.basename (pre ++ rel ++ "/" ++ name) = name)
    by (rewrite Hfile; apply basename_dir_name; assumption).
  rewrite Hbase.
  assert (Hnonempty : dest <> "").
  { unfold dest. destruct destDir; discriminate. }
  unfold destDescription.
  destruct (decide (dest = "")) as [H|_]; [contradiction|].
  destruct (decide (dest ≠ "")) as [_|H]; [|contradiction].
  reflexivity.
Qed.

Lemma match_destination_witness :
  matchDest 8 "dest" "/wd/src/hello/4.txt" = "dest/hello".
Proof.
  apply (match_destination Demo.world "/wd/src/" "hello" "4.txt" "dest" Demo.started
           (MakeBuildConsole "https://server:8154/go/console")
           (NewUploader "https://server:8154/go")); try reflexivity.
  discriminate.
Defined.

(** X15. A match that contains a wildcard sends the upload into itself. If
    the pattern is always among its own matches (a file whose name contains
    a star is matched by its name taken as a pattern), [uploadArtifacts]
    never succeeds on it, whatever the fuel: it returns the error of an
    earlier match, or panics, or does not return. *)
Theorem wildcard_match_never_succeeds W source :
  GoString.Contains source "*" = true ->
  (forall t matches, filepathGlob W t source = inr matches -> source ∈ matches) ->
  forall fuel destDir s s',
    uploadArtifacts W fuel source destDir s <> Ok (None, s').
Proof.
  intros Hwild Hself fuel.
  induction fuel as [|fuel IH]; intros destDir s s'; simpl; rewrite Hwild;
    [discriminate|].
  destruct (filepathGlob W (ticks s) source) as [err|matches] eqn:Hglob;
    [discriminate|].
  apply Hself in Hglob. revert Hglob. generalize (tick s) as s0.
  induction matches as [|file rest IHm]; intros s0 Hin.
  - apply elem_of_nil in Hin. contradiction.
  - destruct (decide _); [|discriminate].
    apply elem_of_cons in Hin as [<-|Hin].
    + destruct (uploadArtifacts W fuel source _ s0) as [[[e|] s1]| |] eqn:Hu;
        simpl; try discriminate.
      exfalso. exact (IH _ _ _ Hu).
    + destruct (uploadArtifacts W fuel file _ s0) as [[[e|] s1]| |] eqn:Hu;
        simpl; try discriminate.
      apply IHm. exact Hin.
Qed.

Lemma wildcard_match_never_succeeds_witness :
  uploadArtifacts Project.world 50 "/wd/odd/a*" "dest" Demo.started
  <> Ok (None, Demo.started).
Proof.
  apply (wildcard_match_never_succeeds Project.world "/wd/odd/a*").
  - reflexivity.
  - intros t matches H. vm_compute in H. injection H as <-. apply list_elem_of_here.
Defined.

Example wildcard_match_exhausts_fuel :
  uploadArtifacts Project.world 50 "/wd/odd/a*" "dest" Demo.started = OutOfFuel.
Proof. vm_compute. reflexivity. Qed.

(** ** A failing subprocess *)

(** X16. A subprocess that ends with an error fails the build, and its
    output comes first. In a started session that has passed so far, let
    [exec] be the first child of a compose, let its subprocess run to its end
    with output [output] and error [err], and let the other children have a
    [runIfConfig] other than "failed" and "any". Then the console receives
    the output (if any) and then the message of [err], the build status
    becomes "failed", the other children are skipped, and the cancel signal
    is not raised. *)
Theorem failing_exec_fails_the_build W fuel cmd exec rest s c output err :
  SubCommands cmd = exec :: rest ->
  kindOf (Name exec) = KExec ->
  Test exec = None ->
  RunIfConfig exec = "passed" ->
  Forall (fun sub => RunIfConfig sub ≠ "any" /\ RunIfConfig sub ≠ "failed") rest ->
  buildStatus s = "passed" ->
  isCanceled s = false ->
  console s = Some c ->
  execRun W (ticks s) (index (Args exec) "command")
    (ExtractArgList exec (Z.of_nat (size (Args exec)) - 1)) (WorkingDirectory exec)
  = Exited output (Some err) ->
  let written :=
    ((if decide (output = "") then [] else [WriteCall output])
     ++ [WriteLnCall err []])%list in
  let s' := assignBuildStatus "failed"
              (set_console (Some (logged c written)) (tick s)) in
  processCompose W fuel cmd s
  = Ok (match rest with [] => Some err | _ => None end, s')
  /\ isCanceled s' = false.
Proof.
  intros Hsubs Hk Ht Hr Hrest Hs Hc Hcon Hrun written s'.
  split; [|exact Hc].
  unfold processCompose. rewrite Hsubs.
  change (composeWith (process W fuel) (exec :: rest) None s)
    with ('(err', s1) ← process W fuel exec s;
          s2 ← match err' with Some e => fail e s1 | None => Ok s1 end;
          composeWith (process W fuel) rest err' s2).
  rewrite process_unfold, Hc, Ht.
  assert (Hskip : skipped exec s = false).
  { unfold skipped. apply bool_decide_eq_false. intros (_ & _ & H).
    apply H. congruence. }
  rewrite Hskip. unfold dispatch, dispatchWith. rewrite Hk.
  unfold processExec. rewrite Hrun.
  assert (Hfinal : forall s1 c1,
             console s1 = Some c1 -> buildStatus s1 = "passed" ->
             assignBuildStatus "failed"
               (set_console (Some (logged c1 [WriteLnCall err []])) s1) = s' ->
             (s2 ← fail err s1; composeWith (process W fuel) rest (Some err) s2)
             = Ok (match rest with [] => Some err | _ => None end, s')).
  { intros s1 c1 Hc1 Hs1 Heq. unfold fail. rewrite Hs1.
    destruct (decide ("passed" ≠ "failed")) as [_|H]; [|exfalso; apply H; discriminate].
    rewrite (WriteLn_bound _ _ _ _ Hc1). simpl. rewrite Heq.
    apply failed_status_skips; [reflexivity|exact Hrest]. }
  unfold Write. destruct (decide (output = "")) as [Hout|Hout]; simpl.
  - apply (Hfinal (tick s) c); [exact Hcon|exact Hs|].
    unfold s', written. reflexivity.
  - rewrite Hcon. simpl.
    apply (Hfinal _ (logged c [WriteCall output])); [reflexivity|exact Hs|].
    unfold s', written. simpl. rewrite logged_logged. reflexivity.
Qed.

Lemma failing_exec_fails_the_build_witness :
  processCompose Project.world 0
    (Demo.compose [Demo.exec "make" "all"; Demo.echo "done" "passed"]) Demo.started
  = Ok (None,
        assignBuildStatus "failed"
          (set_console
             (Some (Demo.consoleOf [WriteCall "compiling";
                                    WriteLnCall "exit status 2" []]))
             (tick Demo.started))).
Proof.
  apply (failing_exec_fails_the_build Project.world 0
           (Demo.compose [Demo.exec "make" "all"; Demo.echo "done" "passed"])
           (Demo.exec "make" "all") [Demo.echo "done" "passed"] Demo.started
           (MakeBuildConsole "https://server:8154/go/console") "compiling"
           "exit status 2"); try reflexivity.
  repeat constructor; discriminate.
Defined.

(** * The earlier build session *)

Example legacy_start_begins :
  Legacy.process Project.world Legacy.someOrder Legacy.start Legacy.MakeBuildSession
  = Ok (None, Legacy.begun).
Proof. vm_compute. reflexivity. Qed.

Example legacy_build_passes :
  exists s, Legacy.Process Project.world Legacy.someOrder Legacy.build
              Legacy.MakeBuildSession = Ok (None, s)
    /\ Legacy.BuildStatus s = "passed"
    /\ Legacy.Envs s = Some {[ "GOPATH" := "/go" ]}
    /\ option_map Legacy.calls (Legacy.Console s) = Some [WriteCall "compiling"]
    /\ length (Legacy.Send s) = 1.
Proof. eexists. vm_compute. repeat split; reflexivity. Qed.

(** ** Induction on the command trees of the earlier session *)

Lemma legacy_tree_ind (P : Legacy.BuildCommand -> Prop) :
  (forall name args wd rif test subs,
      match test with
      | Some (Legacy.MkBuildCommandTest c _) => P c
      | None => True
      end ->
      Forall P subs ->
      P (Legacy.MkBuildCommand name args wd rif test subs)) ->
  forall cmd, P cmd.
Proof.
  intros step. fix IH 1. intros [name args wd rif test subs]. apply step.
  - destruct test as [[c e]|]; [apply IH|exact I].
  - induction subs as [|x l IHl]; constructor; [apply IH|exact IHl].
Qed.

(** [process] is the check of [Stopping], the [select] on [CancelChannel],
    the conditional skip, the guard and the dispatch, in this order. *)
Lemma legacy_process_unfold W range cmd s :
  Legacy.process W range cmd s =
    if Legacy.Stopping s then Ok (None, s)
    else if Legacy.cancelReceived s then Ok (None, Legacy.stop s)
    else if Legacy.skipped cmd s then Ok (None, s)
    else
      match Legacy.Test cmd with
      | Some t =>
          '(err, s1) ← Legacy.process W range (Legacy.Command t) s;
          if decide (bool_decide (err = None) ≠ Legacy.Expectation t)
          then Ok (None, s1)
          else Legacy.dispatch W range cmd s1
      | None => Legacy.dispatch W range cmd s
      end.
Proof.
  destruct cmd as [name args wd rif [[c e]|] subs]; simpl;
    destruct (Legacy.Stopping s); try reflexivity;
    destruct (Legacy.cancelReceived s); try reflexivity;
    destruct (Legacy.skipped _ s); try reflexivity.
Qed.

(** The call by which [processExport] lists the environment is [process] on
    the command that it makes up. *)
Lemma legacy_generated_echo_is_processed W range args s :
  Legacy.processGeneratedEcho args s
  = Legacy.process W range (Legacy.generatedEcho args) s.
Proof. rewrite legacy_process_unfold. reflexivity. Qed.

(** ** What a command can change *)

Section LegacyFrame.

Variable W : World.
Variable range : forall A : Type, gmap string A -> list (string * A).
Variable R : Legacy.BuildSession -> Legacy.BuildSession -> Prop.
Variable allowed : Legacy.Kind -> bool.

Hypothesis R_refl : forall s, R s s.
Hypothesis R_trans : forall s1 s2 s3, R s1 s2 -> R s2 s3 -> R s1 s3.
Hypothesis R_console : forall s c c',
  Legacy.Console s = Some c -> R s (Legacy.set_Console (Some c') s).
Hypothesis R_tick : forall s, R s (Legacy.tick s).
Hypothesis R_stop : forall s, R s (Legacy.stop s).
Hypothesis R_Send : forall s m, R s (Legacy.set_Send (Legacy.Send s ++ [m]) s).
Hypothesis R_envs : forall s m m',
  Legacy.Envs s = Some m -> R s (Legacy.set_Envs (Some m') s).
Hypothesis R_start : forall cmd s e s',
  Legacy.processStart cmd s = Ok (e, s') -> R s s'.
Hypothesis R_failed : allowed Legacy.KTest = true ->
  forall s, R s (Legacy.set_BuildStatus "failed" s).

Lemma legacy_WriteLn_frame line s s' : Legacy.WriteLn line s = Ok s' -> R s s'.
Proof.
  unfold Legacy.WriteLn. destruct (Legacy.Console s) eqn:Hc; [|discriminate].
  intros [= <-]. eapply R_console. exact Hc.
Qed.

Lemma legacy_Write_frame data s s' : Legacy.Write data s = Ok s' -> R s s'.
Proof.
  unfold Legacy.Write. destruct (decide (data = "")); [intros [= <-]; apply R_refl|].
  destruct (Legacy.Console s) eqn:Hc; [|discriminate].
  intros [= <-]. eapply R_console. exact Hc.
Qed.

Lemma legacy_echoArgs_frame args : forall s s',
  Legacy.echoArgs args s = Ok s' -> R s s'.
Proof.
  induction args as [|arg args IH]; intros s s'; simpl.
  - intros [= <-]. apply R_refl.
  - destruct arg as [line| |]; simpl; try discriminate.
    destruct (Legacy.WriteLn line s) as [s1| |] eqn:Hw; simpl; try discriminate.
    intros H. eapply R_trans; [eapply legacy_WriteLn_frame; eassumption|].
    apply IH. exact H.
Qed.

Lemma legacy_processEcho_frame cmd s e s' :
  Legacy.processEcho cmd s = Ok (e, s') -> e = None /\ R s s'.
Proof.
  unfold Legacy.processEcho.
  destruct (Legacy.echoArgs _ s) as [s1| |] eqn:Hw; simpl; try discriminate.
  intros [= <- <-]. split; [reflexivity|]. eapply legacy_echoArgs_frame; eassumption.
Qed.

Lemma legacy_assignEach_frame entries : forall s s',
  Legacy.assignEach entries s = Ok s' -> R s s'.
Proof.
  induction entries as [|[key [str|]] entries IH]; intros s s'; simpl;
    try discriminate.
  - intros [= <-]. apply R_refl.
  - destruct (Legacy.Envs s) as [m|] eqn:He; [|discriminate].
    intros H. eapply R_trans; [eapply R_envs; exact He|eauto].
Qed.

Lemma legacy_processGeneratedEcho_frame args s e s' :
  Legacy.processGeneratedEcho args s = Ok (e, s') -> e = None /\ R s s'.
Proof.
  unfold Legacy.processGeneratedEcho.
  destruct (Legacy.Stopping s); [intros [= <- <-]; auto|].
  destruct (Legacy.cancelReceived s); [intros [= <- <-]; auto|].
  destruct (Legacy.skipped _ s); [intros [= <- <-]; auto|].
  apply legacy_processEcho_frame.
Qed.

Lemma legacy_processExport_frame cmd s e s' :
  Legacy.processExport range cmd s = Ok (e, s') -> e = None /\ R s s'.
Proof.
  unfold Legacy.processExport. destruct (Legacy.Args cmd) as [|[str|m|] args].
  - destruct (Legacy.processGeneratedEcho _ s) as [[e1 s1]| |] eqn:Hg; simpl;
      try discriminate.
    intros [= <- <-]. split; [reflexivity|].
    eapply legacy_processGeneratedEcho_frame; eassumption.
  - discriminate.
  - destruct (Legacy.assignEach _ s) as [s1| |] eqn:Ha; simpl; try discriminate.
    intros [= <- <-]. split; [reflexivity|].
    eapply legacy_assignEach_frame; eassumption.
  - discriminate.
Qed.

Lemma legacy_processTest_frame cmd s e s' :
  Legacy.processTest W cmd s = Ok (e, s') -> R s s'.
Proof.
  unfold Legacy.processTest.
  destruct (Legacy.asString (Legacy.Args cmd !! 0)) as [flag| |]; simpl;
    try discriminate.
  destruct (Legacy.asString (Legacy.Args cmd !! 1)) as [path| |]; simpl;
    try discriminate.
  destruct (decide _); intros [= <- <-]; [apply R_tick|apply R_refl].
Qed.

Lemma legacy_processExec_frame cmd s e s' :
  Legacy.processExec W cmd s = Ok (e, s') -> e = None /\ R s s'.
Proof.
  unfold Legacy.processExec.
  destruct (Legacy.asString (Legacy.Args cmd !! 0)) as [arg0| |]; simpl;
    try discriminate.
  destruct (Legacy.convertToStringSlice _) as [args| |]; simpl; try discriminate.
  destruct (execRun _ _ _ _ _) as [output err|output killErr];
    destruct (Legacy.Write output (Legacy.tick s)) as [s1| |] eqn:Hw; simpl;
    try discriminate; intros [= <- <-]; apply legacy_Write_frame in Hw;
    (split; [reflexivity|]); eauto.
Qed.

Lemma legacy_composeWith_frame proc subs :
  Forall (fun sub => forall s e s', proc sub s = Ok (e, s') ->
                       (allowed Legacy.KTest = false -> e = None) /\ R s s') subs ->
  forall err s e s',
    (allowed Legacy.KTest = false -> err = None) ->
    Legacy.composeWith proc subs err s = Ok (e, s') ->
    (allowed Legacy.KTest = false -> e = None) /\ R s s'.
Proof.
  induction 1 as [|sub subs Hsub _ IH]; intros err s e s' Herr; simpl.
  - intros [= <- <-]. auto.
  - destruct (proc sub s) as [[err1 s1]| |] eqn:Hp; simpl; try discriminate.
    apply Hsub in Hp as [He1 HR1].
    intros H. apply IH in H; [|exact He1]. destruct H as [He HR].
    split; [exact He|]. eapply R_trans; [|exact HR].
    destruct err1 as [msg|]; [|exact HR1].
    eapply R_trans; [exact HR1|]. apply R_failed.
    destruct (allowed Legacy.KTest); [reflexivity|].
    specialize (He1 eq_refl). discriminate.
Qed.

(** A command whose tree holds only kinds that [allowed] accepts changes the
    session within [R], and returns no error when [test] is not among
    them. *)
Lemma legacy_process_frame cmd :
  Legacy.allKinds allowed cmd = true ->
  forall s e s', Legacy.process W range cmd s = Ok (e, s') ->
    (allowed Legacy.KTest = false -> e = None) /\ R s s'.
Proof.
  induction cmd as [name args wd rif test subs IHtest IHsubs]
    using legacy_tree_ind.
  intros Hall s e s'. simpl in Hall.
  apply andb_true_iff in Hall as [Hall Hsubs].
  apply andb_true_iff in Hall as [Hkind Htest].
  assert (Hdispatch : forall s0 e0 s0',
             Legacy.dispatch W range
               (Legacy.MkBuildCommand name args wd rif test subs) s0
             = Ok (e0, s0') ->
             (allowed Legacy.KTest = false -> e0 = None) /\ R s0 s0').
  { intros s0 e0 s0'. unfold Legacy.dispatch, Legacy.dispatchWith. simpl.
    destruct (Legacy.kindOf name) eqn:Hk.
    - intros H. split; [|eapply R_start; exact H].
      unfold Legacy.processStart in H. simpl in H.
      destruct (args !! 0) as [arg|]; [|discriminate].
      repeat (match type of H with
              | context [Legacy.setting ?m ?k] =>
                  destruct (Legacy.setting m k); simpl in H; try discriminate
              end).
      injection H as <- _. reflexivity.
    - unfold Legacy.processCompose. simpl.
      apply legacy_composeWith_frame; [|reflexivity].
      rewrite forallb_forall in Hsubs. rewrite Forall_forall in IHsubs.
      apply Forall_forall. intros sub Hin. apply (IHsubs sub Hin).
      apply Hsubs. apply list_elem_of_In. exact Hin.
    - intros H. apply legacy_processExport_frame in H as [-> H]. auto.
    - intros H. split; [|eapply legacy_processTest_frame; exact H].
      intros Hf. rewrite Hf in Hkind. discriminate.
    - intros H. apply legacy_processExec_frame in H as [-> H]. auto.
    - intros H. apply legacy_processEcho_frame in H as [-> H]. auto.
    - destruct (Legacy.asString (args !! 0)) as [status| |]; simpl; try discriminate.
      destruct (Legacy.makeReportMessage W name status s0) as [msg| |]; simpl;
        try discriminate.
      intros [= <- <-]. auto.
    - destruct (Legacy.makeReportMessage W name "" s0) as [msg| |]; simpl;
        try discriminate.
      intros [= <- <-]. auto.
    - destruct (Legacy.Console s0) as [c|] eqn:Hc; [|discriminate].
      intros [= <- <-]. split; [reflexivity|]. eapply R_console. exact Hc.
    - intros H. apply legacy_processEcho_frame in H as [-> H]. auto. }
  rewrite legacy_process_unfold.
  destruct (Legacy.Stopping s); [intros [= <- <-]; auto|].
  destruct (Legacy.cancelReceived s); [intros [= <- <-]; auto|].
  destruct (Legacy.skipped _ s); [intros [= <- <-]; auto|].
  simpl Legacy.Test. destruct test as [[c ex]|]; [|apply Hdispatch].
  simpl. destruct (Legacy.process W range c s) as [[err s1]| |] eqn:Hp; simpl;
    try discriminate.
  apply (IHtest Htest) in Hp as [_ Hp].
  destruct (decide _).
  - intros [= <- <-]. auto.
  - intros H. apply Hdispatch in H as [He H]. eauto.
Qed.

End LegacyFrame.

Lemma legacy_allKinds_any cmd : Legacy.allKinds (fun _ => true) cmd = true.
Proof.
  induction cmd as [name args wd rif test subs IHtest IHsubs]
    using legacy_tree_ind.
  simpl. destruct test as [[c ex]|]; simpl; [rewrite IHtest|];
    apply forallb_forall; rewrite Forall_forall in IHsubs;
    intros sub Hin; apply IHsubs; apply list_elem_of_In; exact Hin.
Qed.

Lemma legacy_processStart_passed cmd s e s' :
  Legacy.processStart cmd s = Ok (e, s') ->
  e = None /\ Legacy.BuildStatus s' = "passed" /\ Legacy.Envs s' = Some ∅.
Proof.
  unfold Legacy.processStart. intros H.
  destruct (Legacy.Args cmd !! 0) as [arg|]; [|discriminate].
  repeat (match type of H with
          | context [Legacy.setting ?m ?k] =>
              destruct (Legacy.setting m k); simpl in H; try discriminate
          end).
  injection H as <- <-. auto.
Qed.

(** Once [Stopping] is set, the loop of [processCompose] runs through its
    children without effect. *)
Lemma legacy_composeWith_stopping W range subs : forall s,
  Legacy.Stopping s = true ->
  Legacy.composeWith (Legacy.process W range) subs None s = Ok (None, s).
Proof.
  induction subs as [|sub subs IH]; intros s Hs; simpl; [reflexivity|].
  rewrite legacy_process_unfold, Hs. simpl. apply IH. exact Hs.
Qed.

(** X17. In a session whose environment is only there once the build has a
    status, [export] without arguments lists nothing: whatever the
    environment holds and in whatever order [range] yields it, the call
    returns nil and leaves the console, the environment, the build status and
    the messages sent as they are. The listing goes through [process] on a
    command whose [RunIfConfig] is empty, which is skipped as soon as the
    build has a status. *)
Theorem legacy_export_lists_nothing range cmd s :
  Legacy.started s ->
  Legacy.Args cmd = [] ->
  exists s', Legacy.processExport range cmd s = Ok (None, s')
    /\ Legacy.Console s' = Legacy.Console s
    /\ Legacy.Envs s' = Legacy.Envs s
    /\ Legacy.BuildStatus s' = Legacy.BuildStatus s
    /\ Legacy.Send s' = Legacy.Send s.
Proof.
  intros Hstarted Hargs. unfold Legacy.processExport. rewrite Hargs.
  unfold Legacy.processGeneratedEcho.
  destruct (Legacy.Stopping s); [exists s; simpl; auto|].
  destruct (Legacy.cancelReceived s); [exists (Legacy.stop s); simpl; auto|].
  destruct (Legacy.skipped _ s) eqn:Hskip; [exists s; simpl; auto|].
  assert (Hstatus : Legacy.BuildStatus s = "").
  { unfold Legacy.skipped in Hskip. apply bool_decide_eq_false in Hskip.
    simpl in Hskip. destruct (decide (Legacy.BuildStatus s = "")) as [H|H]; [exact H|].
    exfalso. apply Hskip. repeat split; [exact H|discriminate|congruence]. }
  rewrite (Hstarted Hstatus). exists s. simpl. auto.
Qed.

Lemma legacy_export_lists_nothing_witness :
  exists s',
    Legacy.processExport Legacy.someOrder (Legacy.command "export" [] "passed" [])
      (Legacy.set_Envs (Some {[ "GOPATH" := "/go" ]}) Legacy.begun) = Ok (None, s')
    /\ Legacy.Console s' = Some (Legacy.MkBuildConsole "/console" [] 0)
    /\ Legacy.Envs s' = Some {[ "GOPATH" := "/go" ]}
    /\ Legacy.BuildStatus s' = "passed"
    /\ Legacy.Send s' = [].
Proof.
  apply (legacy_export_lists_nothing Legacy.someOrder
           (Legacy.command "export" [] "passed" [])
           (Legacy.set_Envs (Some {[ "GOPATH" := "/go" ]}) Legacy.begun)).
  - intros H. simpl in H. discriminate H.
  - reflexivity.
Defined.

(** X18. The environment is only there once the build has a status, and
    every command keeps it so: if [Envs] is nil whenever [BuildStatus] is
    empty before [process], the same holds when [process] returns. *)
Theorem legacy_started_is_kept W range cmd s e s' :
  Legacy.started s ->
  Legacy.process W range cmd s = Ok (e, s') ->
  Legacy.started s'.
Proof.
  intros Hs Hp. revert Hs.
  apply (legacy_process_frame W range
           (fun s s' => Legacy.started s -> Legacy.started s') (fun _ => true))
    in Hp.
  - apply Hp.
  - auto.
  - auto.
  - intros s0 c c' _ H. exact H.
  - intros s0 H. exact H.
  - intros s0 H. exact H.
  - intros s0 m H. exact H.
  - intros s0 m m' Hm H Hst. simpl in Hst. apply H in Hst. congruence.
  - intros cmd0 s0 e0 s0' H _ Hst.
    apply legacy_processStart_passed in H as (_ & Hp' & _).
    rewrite Hp' in Hst. discriminate.
  - intros _ s0 _ Hst. simpl in Hst. discriminate.
  - apply legacy_allKinds_any.
Qed.

Lemma legacy_started_is_kept_witness :
  exists s',
    Legacy.process Project.world Legacy.someOrder Legacy.build Legacy.MakeBuildSession
    = Ok (None, s')
    /\ Legacy.started s'.
Proof.
  eexists. split; [vm_compute; reflexivity|].
  eapply (legacy_started_is_kept Project.world Legacy.someOrder Legacy.build
            Legacy.MakeBuildSession None).
  - intros _. reflexivity.
  - vm_compute. reflexivity.
Defined.

(** X19. In the earlier session only [test] can fail a build: a command whose
    tree holds no [test] returns nil when it returns, and leaves the build
    status as it was or, through [start], at passed. In particular a
    subprocess that ends with an error, or that cannot be started, does not
    fail the build. *)
Theorem legacy_only_test_fails W range cmd s e s' :
  Legacy.allKinds Legacy.notTest cmd = true ->
  Legacy.process W range cmd s = Ok (e, s') ->
  e = None
  /\ (Legacy.BuildStatus s' = Legacy.BuildStatus s
      \/ Legacy.BuildStatus s' = "passed").
Proof.
  intros Hall Hp.
  apply (legacy_process_frame W range
           (fun s s' => Legacy.BuildStatus s' = Legacy.BuildStatus s
                        \/ Legacy.BuildStatus s' = "passed") Legacy.notTest)
    in Hp.
  - destruct Hp as [He HR]. split; [apply He; reflexivity|exact HR].
  - auto.
  - intros s1 s2 s3 [H1|H1] [H2|H2]; auto; [left|right]; congruence.
  - intros s0 c c' _. left. reflexivity.
  - intros s0. left. reflexivity.
  - intros s0. left. reflexivity.
  - intros s0 m. left. reflexivity.
  - intros s0 m m' _. left. reflexivity.
  - intros cmd0 s0 e0 s0' H. right.
    apply legacy_processStart_passed in H as (_ & H & _). exact H.
  - discriminate.
  - exact Hall.
Qed.

Lemma legacy_only_test_fails_witness :
  exists s',
    Legacy.process Project.world Legacy.someOrder Legacy.build Legacy.MakeBuildSession
    = Ok (None, s')
    /\ (None : option error) = None
    /\ (Legacy.BuildStatus s' = Legacy.BuildStatus Legacy.MakeBuildSession
        \/ Legacy.BuildStatus s' = "passed").
Proof.
  eexists. split; [vm_compute; reflexivity|].
  eapply (legacy_only_test_fails Project.world Legacy.someOrder Legacy.build
            Legacy.MakeBuildSession None).
  - vm_compute. reflexivity.
  - vm_compute. reflexivity.
Defined.

(** X20. A session serves one build: once [Process] has returned, the two
    channels are closed, so that [Close] panics in its send on
    [CancelChannel], and a second [Process], whatever its command, receives
    from the closed channel, runs nothing and panics when it closes the
    channel again. *)
Theorem legacy_session_serves_one_build W range cmd s e s' :
  Legacy.Process W range cmd s = Ok (e, s') ->
  Legacy.Close s' = Panic "send on closed channel"
  /\ forall cmd', Legacy.Process W range cmd' s' = Panic "close of closed channel".
Proof.
  unfold Legacy.Process.
  destruct (Legacy.process W range cmd _) as [[err s1]| |]; simpl; try discriminate.
  destruct (Legacy.cancelClosed s1 || Legacy.doneClosed s1); [discriminate|].
  intros [= <- <-]. split; [reflexivity|].
  intros cmd'. rewrite legacy_process_unfold. simpl.
  unfold Legacy.cancelReceived. simpl. rewrite orb_true_r. reflexivity.
Qed.

Lemma legacy_session_serves_one_build_witness :
  exists s',
    Legacy.Process Project.world Legacy.someOrder Legacy.build Legacy.MakeBuildSession
    = Ok (None, s')
    /\ Legacy.Close s' = Panic "send on closed channel"
    /\ forall cmd', Legacy.Process Project.world Legacy.someOrder cmd' s'
                    = Panic "close of closed channel".
Proof.
  eexists. split; [vm_compute; reflexivity|].
  eapply (legacy_session_serves_one_build Project.world Legacy.someOrder
            Legacy.build Legacy.MakeBuildSession None).
  vm_compute. reflexivity.
Defined.

(** X21. A [Close] that waits in its send before the build begins stops it at
    the first command: [Process] returns nil with [Stopping] set and both
    channels closed, the waiting [Close] has been received, and nothing is
    written, sent, bound or asked of the world. *)
Theorem legacy_Close_before_Process W range cmd s s0 :
  Legacy.doneClosed s = false ->
  Legacy.Close s = Ok s0 ->
  exists s1, Legacy.Process W range cmd s0 = Ok (None, s1)
    /\ Legacy.Stopping s1 = true
    /\ Legacy.closeWaiting s1 = false
    /\ Legacy.cancelClosed s1 = true
    /\ Legacy.doneClosed s1 = true
    /\ Legacy.Console s1 = Legacy.Console s
    /\ Legacy.Send s1 = Legacy.Send s
    /\ Legacy.BuildStatus s1 = Legacy.BuildStatus s
    /\ Legacy.Envs s1 = Legacy.Envs s
    /\ Legacy.state s1 = Legacy.state s
    /\ Legacy.ticks s1 = Legacy.ticks s.
Proof.
  intros Hdone. unfold Legacy.Close.
  destruct (Legacy.cancelClosed s) eqn:Hc; [discriminate|]. intros [= <-].
  unfold Legacy.Process. rewrite legacy_process_unfold. simpl.
  rewrite Hc, Hdone. simpl. eexists. split; [reflexivity|]. simpl.
  repeat split; reflexivity.
Qed.

Lemma legacy_Close_before_Process_witness :
  exists s1,
    Legacy.Process Project.world Legacy.someOrder Legacy.build
      (Legacy.set_closeWaiting true Legacy.MakeBuildSession) = Ok (None, s1)
    /\ Legacy.Stopping s1 = true
    /\ Legacy.closeWaiting s1 = false
    /\ Legacy.cancelClosed s1 = true
    /\ Legacy.doneClosed s1 = true
    /\ Legacy.Console s1 = None
    /\ Legacy.Send s1 = []
    /\ Legacy.BuildStatus s1 = ""
    /\ Legacy.Envs s1 = None
    /\ Legacy.state s1 = ∅
    /\ Legacy.ticks s1 = 0.
Proof.
  apply (legacy_Close_before_Process Project.world Legacy.someOrder Legacy.build
           Legacy.MakeBuildSession
           (Legacy.set_closeWaiting true Legacy.MakeBuildSession));
    reflexivity.
Defined.

Lemma legacy_setting_ok settings key str :
  settings !! key = Some (Some str) -> Legacy.setting settings key = Ok str.
Proof. unfold Legacy.setting. intros ->. reflexivity. Qed.

Lemma legacy_setting_cases settings key :
  (exists str, settings !! key = Some (Some str)
               /\ Legacy.setting settings key = Ok str)
  \/ ((forall str, settings !! key ≠ Some (Some str))
      /\ Legacy.setting settings key = Panic "interface conversion").
Proof.
  unfold Legacy.setting. destruct (settings !! key) as [[str|]|].
  - left. exists str. auto.
  - right. split; [discriminate|reflexivity].
  - right. split; [discriminate|reflexivity].
Qed.

(** X22. [start] needs its settings: with a first argument that is a map
    holding the six settings as strings, [processStart] returns nil and
    leaves the build passed, the environment empty, a new console at the
    given URI and the two locators stored; with anything else (no argument,
    an argument that is not a map, a setting that is missing or not a
    string) it panics. *)
Theorem legacy_start_needs_its_settings cmd s :
  (Legacy.startable cmd ->
   exists s', Legacy.processStart cmd s = Ok (None, s')
     /\ Legacy.BuildStatus s' = "passed"
     /\ Legacy.Envs s' = Some ∅
     /\ (exists uri, Legacy.Console s' = Some (Legacy.MkBuildConsole uri [] 0))
     /\ is_Some (Legacy.state s' !! "buildLocator")
     /\ is_Some (Legacy.state s' !! "buildLocatorForDisplay")
     /\ Legacy.Send s' = Legacy.Send s)
  /\ (~ Legacy.startable cmd ->
      exists msg, Legacy.processStart cmd s = Panic msg).
Proof.
  split.
  - intros (settings & Harg & Hall). unfold Legacy.processStart. rewrite Harg.
    unfold Legacy.startSettings in Hall.
    rewrite !Forall_cons in Hall.
    destruct Hall as ((v1 & H1) & (v2 & H2) & (v3 & H3) & (v4 & H4) & (v5 & H5)
                      & (v6 & H6) & _).
    rewrite (legacy_setting_ok _ _ _ H1); simpl.
    rewrite (legacy_setting_ok _ _ _ H2); simpl.
    rewrite (legacy_setting_ok _ _ _ H3); simpl.
    rewrite (legacy_setting_ok _ _ _ H4); simpl.
    rewrite (legacy_setting_ok _ _ _ H5); simpl.
    rewrite (legacy_setting_ok _ _ _ H6); simpl.
    eexists. split; [reflexivity|]. simpl. unfold Legacy.SetState. simpl.
    repeat split; eauto.
    + rewrite lookup_insert_ne by discriminate. rewrite lookup_insert. eauto.
    + rewrite lookup_insert. eauto.
  - intros Hn. unfold Legacy.processStart.
    destruct (Legacy.Args cmd !! 0) as [arg|] eqn:Harg; [|eauto].
    destruct arg as [str|settings|];
      try (unfold Legacy.setting at 1; rewrite lookup_empty; simpl; eauto).
    destruct (legacy_setting_cases settings "buildLocator")
      as [(v1 & H1 & ->)|[_ ->]]; simpl; [|eauto].
    destruct (legacy_setting_cases settings "buildLocatorForDisplay")
      as [(v2 & H2 & ->)|[_ ->]]; simpl; [|eauto].
    destruct (legacy_setting_cases settings "consoleURI")
      as [(v3 & H3 & ->)|[_ ->]]; simpl; [|eauto].
    destruct (legacy_setting_cases settings "artifactUploadBaseUrl")
      as [(v4 & H4 & ->)|[_ ->]]; simpl; [|eauto].
    destruct (legacy_setting_cases settings "propertyBaseUrl")
      as [(v5 & H5 & ->)|[_ ->]]; simpl; [|eauto].
    destruct (legacy_setting_cases settings "buildId")
      as [(v6 & H6 & ->)|[_ ->]]; simpl; [|eauto].
    exfalso. apply Hn. exists settings. split; [exact Harg|].
    unfold Legacy.startSettings. repeat constructor; eauto.
Qed.

(** X23. A cancel signal that comes while a subprocess runs stops the build
    quietly: when the first child of a [compose] is an [exec] that is reached
    and whose run is cut by the signal, [processCompose] writes what the
    subprocess had printed, sets [Stopping] and returns nil; the other
    children are ignored and the build status stays as it was. *)
Theorem legacy_cancel_during_exec_stops_quietly
    W range parent cmd rest s arg0 args output killErr s1 :
  Legacy.SubCommands parent = cmd :: rest ->
  Legacy.Stopping s = false ->
  Legacy.cancelReceived s = false ->
  Legacy.skipped cmd s = false ->
  Legacy.Name cmd = "exec" ->
  Legacy.Test cmd = None ->
  Legacy.Args cmd !! 0 = Some (Legacy.VString arg0) ->
  Legacy.convertToStringSlice (drop 1 (Legacy.Args cmd)) = Ok args ->
  execRun W (Legacy.ticks s) arg0 args (Legacy.WorkingDirectory cmd)
  = Canceled output killErr ->
  Legacy.Write output (Legacy.tick s) = Ok s1 ->
  Legacy.processCompose W range parent s = Ok (None, Legacy.stop s1)
  /\ Legacy.Stopping (Legacy.stop s1) = true
  /\ Legacy.BuildStatus (Legacy.stop s1) = Legacy.BuildStatus s.
Proof.
  intros Hsubs Hstop Hcancel Hskip Hname Htest Harg0 Hargs Hrun Hw.
  assert (Hstatus : Legacy.BuildStatus s1 = Legacy.BuildStatus s).
  { unfold Legacy.Write in Hw. destruct (decide (output = "")).
    - injection Hw as <-. reflexivity.
    - destruct (Legacy.Console (Legacy.tick s)); [|discriminate].
      injection Hw as <-. reflexivity. }
  split; [|split; [reflexivity|exact Hstatus]].
  unfold Legacy.processCompose. rewrite Hsubs. simpl.
  rewrite legacy_process_unfold, Hstop, Hcancel, Hskip, Htest.
  unfold Legacy.dispatch, Legacy.dispatchWith. rewrite Hname. simpl.
  unfold Legacy.processExec. rewrite Harg0. simpl. rewrite Hargs. simpl.
  rewrite Hrun, Hw. simpl.
  apply legacy_composeWith_stopping. reflexivity.
Qed.

Lemma legacy_cancel_during_exec_stops_quietly_witness :
  Legacy.processCompose Demo.world Legacy.someOrder
    (Legacy.command "compose" [] ""
       [Legacy.command "exec" [Legacy.VString "sleep"; Legacy.VString "10"] "passed" [];
        Legacy.command "echo" [Legacy.VString "done"] "passed" []])
    Legacy.begun
  = Ok (None, Legacy.stop (Legacy.tick Legacy.begun))
  /\ Legacy.Stopping (Legacy.stop (Legacy.tick Legacy.begun)) = true
  /\ Legacy.BuildStatus (Legacy.stop (Legacy.tick Legacy.begun))
     = Legacy.BuildStatus Legacy.begun.
Proof.
  apply (legacy_cancel_during_exec_stops_quietly Demo.world Legacy.someOrder
           (Legacy.command "compose" [] ""
              [Legacy.command "exec" [Legacy.VString "sleep"; Legacy.VString "10"]
                 "passed" [];
               Legacy.command "echo" [Legacy.VString "done"] "passed" []])
           (Legacy.command "exec" [Legacy.VString "sleep"; Legacy.VString "10"]
              "passed" [])
           [Legacy.command "echo" [Legacy.VString "done"] "passed" []]
           Legacy.begun "sleep" ["10"] "" None (Legacy.tick Legacy.begun));
    reflexivity.
Defined.

Lemma legacy_assignEach_strings (entries : list (string * string)) : forall s m,
  NoDup entries.*1 ->
  Legacy.Envs s = Some m ->
  Legacy.assignEach (prod_map id Some <$> entries) s
  = Ok (Legacy.set_Envs (Some (list_to_map entries ∪ m)) s).
Proof.
  induction entries as [|[key str] entries IH]; intros s m Hnd He.
  - simpl. rewrite (left_id_L ∅ (∪)). destruct s. simpl in He. subst. reflexivity.
  - apply NoDup_cons in Hnd as [Hkey Hnd]. simpl. rewrite He.
    rewrite (IH _ (<[key := str]> m)); [|exact Hnd|reflexivity].
    simpl. rewrite <- insert_union_r, insert_union_l; [reflexivity|].
    apply not_elem_of_list_to_map_1. exact Hkey.
Qed.

(** X24. [export] with a map of strings overlays it on the environment in
    whatever order [range] yields the entries: if [range] yields the
    entries of a map, each once, the environment after the call is the new
    bindings over the old ones, nil is returned and nothing else changes. *)
Theorem legacy_export_overlays_in_any_order
    (range : forall A : Type, gmap string A -> list (string * A))
    cmd rest (new m : gmap string string) s :
  (forall entries : gmap string (option string),
      range _ entries ≡ₚ map_to_list entries) ->
  Legacy.Args cmd = Legacy.VMap (Some <$> new) :: rest ->
  Legacy.Envs s = Some m ->
  Legacy.processExport range cmd s
  = Ok (None, Legacy.set_Envs (Some (new ∪ m)) s).
Proof.
  intros Hrange Hargs He. unfold Legacy.processExport. rewrite Hargs.
  pose proof (Hrange (Some <$> new)) as Hperm.
  rewrite map_to_list_fmap in Hperm.
  apply Permutation_map_inv in Hperm as (entries & Heq & Hperm).
  change (map (prod_map id Some) entries) with (prod_map id Some <$> entries) in Heq.
  rewrite Heq, (legacy_assignEach_strings entries s m); [| |exact He].
  - simpl. rewrite (list_to_map_flip new entries Hperm). reflexivity.
  - rewrite <- Hperm. apply NoDup_fst_map_to_list.
Qed.

Lemma legacy_export_overlays_in_any_order_witness :
  Legacy.processExport Legacy.someOrder
    (Legacy.command "export"
       [Legacy.VMap (Some <$> {[ "GOPATH" := "/go"; "CI" := "true" ]})] "passed" [])
    (Legacy.set_Envs (Some {[ "CI" := "false" ]}) Legacy.begun)
  = Ok (None,
        Legacy.set_Envs
          (Some ({[ "GOPATH" := "/go"; "CI" := "true" ]} ∪ {[ "CI" := "false" ]}))
          (Legacy.set_Envs (Some {[ "CI" := "false" ]}) Legacy.begun)).
Proof.
  apply (legacy_export_overlays_in_any_order Legacy.someOrder _ []
           {[ "GOPATH" := "/go"; "CI" := "true" ]} {[ "CI" := "false" ]}).
  - intros entries. reflexivity.
  - reflexivity.
  - reflexivity.
Defined.
